(** * Igloo iOS: background soundscape session

    A shallow embedding of the audio subsystem of the Igloo signer:

    - the soundscape registry ([services/audio/soundscapes.ts]);
    - the persisted audio preferences ([stores/audioStore.ts]);
    - the native playback module ([BackgroundAudioModule.swift], as listed
      in [llm/BACKGROUND_AUDIO_IMPLEMENTATION.md]);
    - the [AudioService] wrapper, its health check, and the signer glue
      ([IglooService.startSigner] / [stopSigner], [useSigner.start]) as
      listed in [llm/SIGNER_SOUNDSCAPE_INTEGRATION.md] and [hooks/useSigner].

    JavaScript [async] functions become programs of a state-and-exception
    monad over one [World]; [await] is sequencing, [throw] is the [Throw]
    result.  Numbers that hold a volume are exact rationals. *)

From Stdlib Require Import String List Bool Arith ZArith QArith Qminmax Lia.
From Stdlib Require Import Ascii Strings.Byte DecimalString DecimalZ.
From Stdlib Require HexadecimalString HexadecimalN.
Import ListNotations.
Close Scope Q_scope.
Open Scope string_scope.

Set Implicit Arguments.

(** ** Results of fallible code *)

Inductive Exn : Type :=
| TypeError                       (* property read on [undefined] / call on [null] *)
| JsError (message : string)      (* [new Error(message)] *)
| AssetNotFound                   (* rejected by registry validation *)
| NSError (code : Z)              (* [NSError(domain: "BackgroundAudio", code:)] *)
| AVFoundationError.              (* thrown by AVAudioSession / AVAudioPlayer *)

Inductive Result (A : Type) : Type :=
| Ok (a : A)
| Throw (e : Exn).

Arguments Ok {A} a.
Arguments Throw {A} e.

(** ** Soundscape registry ([services/audio/soundscapes.ts]) *)

Module Soundscapes.

Record SoundscapeConfig : Type := mkConfig {
  id : string;
  name : string;
  description : string;
  filename : string;
  available : bool
}.

(** The object literal, as the ordered list of its own properties. *)
Definition SOUNDSCAPE_REGISTRY : list (string * SoundscapeConfig) :=
  [ ("ocean-waves",
     mkConfig "ocean-waves" "Ocean Waves"
              "Gentle waves lapping on the shore" "ocean-waves" true);
    ("rain",
     mkConfig "rain" "Rain" "Soft rainfall on leaves" "rain" false);
    ("forest",
     mkConfig "forest" "Forest" "Birds and rustling leaves" "forest" false);
    ("white-noise",
     mkConfig "white-noise" "White Noise" "Steady ambient noise"
              "whitenoise" false);
    ("campfire",
     mkConfig "campfire" "Campfire" "Crackling fire sounds" "campfire" false) ].

Definition DEFAULT_SOUNDSCAPE_ID : string := "ocean-waves".

Definition DEFAULT_VOLUME : Q := (3 # 10)%Q.

(** *** Property access on a JavaScript object

    [o[key]] finds an own property first and then walks the prototype
    chain; an object literal inherits from [Object.prototype]. *)

Fixpoint ownProperty (V : Type) (o : list (string * V)) (key : string)
  : option V :=
  match o with
  | [] => None
  | (k, v) :: rest => if String.eqb key k then Some v else ownProperty rest key
  end.

Definition objectPrototypeKeys : list string :=
  [ "constructor"; "hasOwnProperty"; "isPrototypeOf"; "propertyIsEnumerable";
    "toLocaleString"; "toString"; "valueOf"; "__proto__";
    "__defineGetter__"; "__defineSetter__";
    "__lookupGetter__"; "__lookupSetter__" ].

Definition inherited (key : string) : bool :=
  existsb (String.eqb key) objectPrototypeKeys.

(** What [SOUNDSCAPE_REGISTRY[id]] evaluates to at run time. *)
Inductive Property : Type :=
| Own (c : SoundscapeConfig)     (* a registry entry *)
| Inherited (key : string)       (* a member of [Object.prototype] *)
| Undefined.

Definition getProperty (o : list (string * SoundscapeConfig)) (key : string)
  : Property :=
  match ownProperty o key with
  | Some c => Own c
  | None => if inherited key then Inherited key else Undefined
  end.

(** [p.field]: reading a field of an entry gives its value, of an
    inherited function or prototype object gives [undefined] ([None]),
    of [undefined] raises a TypeError. *)
Definition readField (A : Type) (field : SoundscapeConfig -> A) (p : Property)
  : Result (option A) :=
  match p with
  | Own c => Ok (Some (field c))
  | Inherited _ => Ok None
  | Undefined => Throw TypeError
  end.

(** [Object.values] lists own enumerable properties in insertion order. *)
Definition Object_values (V : Type) (o : list (string * V)) : list V :=
  map snd o.

Definition getAvailableSoundscapes : list SoundscapeConfig :=
  filter available (Object_values SOUNDSCAPE_REGISTRY).

Definition getAllSoundscapes : list SoundscapeConfig :=
  Object_values SOUNDSCAPE_REGISTRY.

Definition getSoundscapeById (id : string) : Property :=
  getProperty SOUNDSCAPE_REGISTRY id.

Definition getSoundscapeFilename (id : string) : Result (option string) :=
  readField filename (getProperty SOUNDSCAPE_REGISTRY id).

Definition isSoundscapeAvailable (id : string) : Result (option bool) :=
  readField available (getProperty SOUNDSCAPE_REGISTRY id).

(** An id is registered when the registry has an own entry for it. *)
Definition registered (id : string) : bool :=
  match ownProperty SOUNDSCAPE_REGISTRY id with
  | Some _ => true
  | None => false
  end.

End Soundscapes.

(** ** Data model *)

(** The live platform player ([AVAudioPlayer]); [handle] tells one
    instance from another. *)
Module Player.
Record t : Type := mk {
  handle : nat;
  contentsOf : string;
  volume : Q;
  numberOfLoops : Z
}.
Definition withVolume (v : Q) (p : t) : t :=
  mk (handle p) (contentsOf p) v (numberOfLoops p).
End Player.

(** Stored properties of [BackgroundAudioModule] (Swift). *)
Module Swift.
Record t : Type := mk {
  audioPlayer : option Player.t;
  playing : bool;
  currentSoundscape : string;
  allocated : nat                 (* players created so far *)
}.
Definition initial : t := mk None false "ocean-waves" 0.
Definition withPlayer (p : option Player.t) (n : t) : t :=
  mk p (playing n) (currentSoundscape n) (allocated n).
Definition withPlaying (b : bool) (n : t) : t :=
  mk (audioPlayer n) b (currentSoundscape n) (allocated n).
Definition withSoundscape (f : string) (n : t) : t :=
  mk (audioPlayer n) (playing n) f (allocated n).
End Swift.

(** Payload of the [onPlaybackStateChanged] event. *)
Inductive Reason : Type := interrupted | resumed | resumeFailed.

Record PlaybackEvent : Type := mkEvent {
  ev_isPlaying : bool;
  ev_reason : Reason
}.

Definition Callback : Type := nat.

(** Private fields of the [AudioService] singleton. *)
Module Service.
Record t : Type := mk {
  isPlaying : bool;
  healthCheckInterval : option N;
  onHealthCheckFailed : option Callback
}.
Definition initial : t := mk false None None.
Definition withIsPlaying (b : bool) (s : t) : t :=
  mk b (healthCheckInterval s) (onHealthCheckFailed s).
End Service.

(** [AudioStoreState]: the persisted preferences. *)
Module Prefs.
Record t : Type := mk {
  volume : Q;
  soundscapeId : string
}.
Definition initial : t :=
  mk Soundscapes.DEFAULT_VOLUME Soundscapes.DEFAULT_SOUNDSCAPE_ID.
End Prefs.

(** [Platform.OS]. *)
Inductive OS : Type := ios | android | web.

Definition isIos (os : OS) : bool :=
  match os with ios => true | _ => false end.

(** What the surroundings answer when asked: the audio session, the app
    bundle, the platform player, secure storage and the relay network. *)
Record Env : Type := mkEnv {
  sessionActivates : bool;        (* setCategory / setActive succeed *)
  bundle : list string;           (* bundled [.m4a] resources *)
  playerCreates : bool;           (* [AVAudioPlayer(contentsOf:)] succeeds *)
  playerPlays : bool;             (* [audioPlayer.play()] returns true *)
  credentialsStored : bool;       (* [secureStorage.getCredentials()] *)
  nodeStarts : bool               (* node creation and relay connection *)
}.

Definition bundled (e : Env) (resource : string) : bool :=
  existsb (String.eqb resource) (bundle e).

(** Operations observed at the native module, as its diagnostics report
    them. *)
Inductive EngineOp : Type :=
| QueryIsPlaying                   (* AsyncFunction "isPlaying" *)
| SetVolume (v : Q)                (* AsyncFunction "setVolume" *)
| SetSoundscape (file : string)    (* AsyncFunction "setSoundscape" *)
| StartPlayback (file : string)    (* "START PLAYBACK" *)
| PlaybackStarted                  (* "Playback started successfully!" *)
| StopPlayback                     (* teardown of the live player *)
| Resume (ok : bool).              (* [play()] on the existing player *)

Record World : Type := mkWorld {
  platformOS : OS;
  env : Env;
  nativeModule : option Swift.t;   (* [BackgroundAudioModule], or null *)
  service : Service.t;             (* [audioService] *)
  store : Prefs.t;                 (* [useAudioStore] *)
  node : bool;                     (* [IglooService.node] is set *)
  engineLog : list EngineOp;       (* newest first *)
  sentEvents : list PlaybackEvent; (* newest first *)
  invoked : list Callback;         (* callbacks run, newest first *)
  statusWrites : list bool         (* values assigned to [isPlaying], newest first *)
}.

Definition withNative (n : option Swift.t) (w : World) : World :=
  mkWorld (platformOS w) (env w) n (service w) (store w) (node w)
          (engineLog w) (sentEvents w) (invoked w) (statusWrites w).

Definition withService (s : Service.t) (w : World) : World :=
  mkWorld (platformOS w) (env w) (nativeModule w) s (store w) (node w)
          (engineLog w) (sentEvents w) (invoked w) (statusWrites w).

Definition withStore (p : Prefs.t) (w : World) : World :=
  mkWorld (platformOS w) (env w) (nativeModule w) (service w) p (node w)
          (engineLog w) (sentEvents w) (invoked w) (statusWrites w).

Definition withNode (b : bool) (w : World) : World :=
  mkWorld (platformOS w) (env w) (nativeModule w) (service w) (store w) b
          (engineLog w) (sentEvents w) (invoked w) (statusWrites w).

Definition logged (op : EngineOp) (w : World) : World :=
  mkWorld (platformOS w) (env w) (nativeModule w) (service w) (store w) (node w)
          (op :: engineLog w) (sentEvents w) (invoked w) (statusWrites w).

Definition emitted (e : PlaybackEvent) (w : World) : World :=
  mkWorld (platformOS w) (env w) (nativeModule w) (service w) (store w) (node w)
          (engineLog w) (e :: sentEvents w) (invoked w) (statusWrites w).

Definition called (cb : Callback) (w : World) : World :=
  mkWorld (platformOS w) (env w) (nativeModule w) (service w) (store w) (node w)
          (engineLog w) (sentEvents w) (cb :: invoked w) (statusWrites w).

Definition assigned (b : bool) (w : World) : World :=
  mkWorld (platformOS w) (env w) (nativeModule w)
          (Service.withIsPlaying b (service w)) (store w) (node w)
          (engineLog w) (sentEvents w) (invoked w) (b :: statusWrites w).

(** The module-load guard of [BackgroundAudioModule.ts]: the module is
    required on iOS only, and a failing [requireNativeModule] is caught. *)
Definition loadModule (os : OS) (requireNativeModule : Result Swift.t)
  : option Swift.t :=
  if isIos os then
    match requireNativeModule with
    | Ok m => Some m
    | Throw _ => None
    end
  else None.

Definition boot (os : OS) (e : Env) (requireNativeModule : Result Swift.t)
  : World :=
  mkWorld os e (loadModule os requireNativeModule)
          Service.initial Prefs.initial false [] [] [] [].

(** ** The monad of asynchronous code *)

Definition M (A : Type) : Type := World -> Result A * World.

Definition ret (A : Type) (a : A) : M A := fun w => (Ok a, w).

Definition bind (A B : Type) (m : M A) (f : A -> M B) : M B :=
  fun w =>
    match m w with
    | (Ok a, w') => f a w'
    | (Throw e, w') => (Throw e, w')
    end.

Definition throw (A : Type) (e : Exn) : M A := fun w => (Throw e, w).

Arguments throw {A} e.

Definition try (A : Type) (m : M A) (handler : Exn -> M A) : M A :=
  fun w =>
    match m w with
    | (Ok a, w') => (Ok a, w')
    | (Throw e, w') => handler e w'
    end.

Definition get : M World := fun w => (Ok w, w).

Definition modify (f : World -> World) : M unit := fun w => (Ok tt, f w).

Definition exec (A : Type) (m : M A) (w : World) : World := snd (m w).

Definition outcome (A : Type) (m : M A) (w : World) : Result A := fst (m w).

Declare Scope async_scope.
Delimit Scope async_scope with async.
Notation "x <- m ;; k" := (bind m (fun x => k))
  (at level 61, m at next level, right associativity) : async_scope.
Notation "m ;; k" := (bind m (fun _ => k))
  (at level 61, right associativity) : async_scope.
Open Scope async_scope.

(** Reading and writing the native module from inside it; from
    JavaScript, a call on a null module is a TypeError. *)
Definition readNative : M Swift.t :=
  fun w =>
    match nativeModule w with
    | Some n => (Ok n, w)
    | None => (Throw TypeError, w)
    end.

Definition writeNative (f : Swift.t -> Swift.t) : M unit :=
  n <- readNative ;; modify (withNative (Some (f n))).

(** ** The native module ([BackgroundAudioModule.swift]) *)

Module BackgroundAudioModule.

Definition configureAndActivateAudioSession : M unit :=
  w <- get ;;
  if sessionActivates (env w) then ret tt else throw AVFoundationError.

Definition startPlayback : M bool :=
  n <- readNative ;;
  modify (logged (StartPlayback (Swift.currentSoundscape n))) ;;
  (* Step 1: configure audio session *)
  configureAndActivateAudioSession ;;
  w <- get ;;
  (* Step 2: find audio file *)
  if bundled (env w) (Swift.currentSoundscape n) then
    (* Step 3: create player *)
    if playerCreates (env w) then
      writeNative (fun n =>
        Swift.mk (Some (Player.mk (Swift.allocated n)
                                  (Swift.currentSoundscape n) (3 # 10)%Q (-1)%Z))
                 (Swift.playing n) (Swift.currentSoundscape n)
                 (S (Swift.allocated n))) ;;
      (* Step 4: prepare to play (result unused) *)
      (* Step 5: start playback, verify result *)
      if playerPlays (env w) then
        writeNative (Swift.withPlaying true) ;;
        modify (logged PlaybackStarted) ;;
        ret true
      else throw (NSError 2%Z)
    else throw AVFoundationError
  else throw (NSError 1%Z).

(** Modelled from the spec: the body of [stopPlayback] is not listed; per
    the Engine contract, [stop] tears down the live handle and is
    idempotent (stopping when nothing is playing succeeds trivially). *)
Definition stopPlayback : M bool :=
  _ <- readNative ;;
  modify (logged StopPlayback) ;;
  writeNative (fun n => Swift.withPlaying false (Swift.withPlayer None n)) ;;
  ret true.

Definition play (filename : option string) : M bool :=
  match filename with
  | Some newFilename =>
      if negb (String.eqb newFilename EmptyString)
      then writeNative (Swift.withSoundscape newFilename)
      else ret tt
  | None => ret tt
  end ;;
  startPlayback.

Definition stop : M bool := stopPlayback.

Definition setVolume (volume : Q) : M bool :=
  _ <- readNative ;;
  modify (logged (SetVolume volume)) ;;
  writeNative (fun n =>
    Swift.withPlayer
      (option_map (Player.withVolume (Qmax 0 (Qmin 1 volume))%Q)
                  (Swift.audioPlayer n)) n) ;;
  ret true.

Definition isPlaying : M bool :=
  n <- readNative ;;
  modify (logged QueryIsPlaying) ;;
  ret (Swift.playing n).

Definition setSoundscape (filename : string) : M bool :=
  _ <- readNative ;;
  modify (logged (SetSoundscape filename)) ;;
  writeNative (Swift.withSoundscape filename) ;;
  n <- readNative ;;
  if Swift.playing n then
    stopPlayback ;;
    startPlayback
  else ret true.

Inductive InterruptionType : Type := began | ended.

Definition sendEvent (e : PlaybackEvent) : M unit := modify (emitted e).

Definition handleInterruption (type : InterruptionType) : M unit :=
  n <- readNative ;;
  match type with
  | began => sendEvent (mkEvent false interrupted)
  | ended =>
      if Swift.playing n then
        w <- get ;;
        (* try setActive(true) *)
        (if sessionActivates (env w) then ret tt
         else throw AVFoundationError) ;;
        (* audioPlayer?.play() ?? false *)
        let didResume :=
          match Swift.audioPlayer n with
          | Some _ => playerPlays (env w)
          | None => false
          end in
        modify (logged (Resume didResume)) ;;
        if didResume then sendEvent (mkEvent true resumed)
        else
          writeNative (Swift.withPlaying false) ;;
          sendEvent (mkEvent false resumeFailed)
      else ret tt
  end.

(** [handleRouteChange]; [playerIsPlaying] is what the platform player
    answers to [isPlaying] when the route has changed. *)
Definition handleRouteChange (playerIsPlaying : bool) : M unit :=
  n <- readNative ;;
  (* playing && audioPlayer?.isPlaying == false *)
  let playerStopped :=
    match Swift.audioPlayer n with
    | Some _ => negb playerIsPlaying
    | None => false
    end in
  if Swift.playing n && playerStopped then
    (* audioPlayer?.play(), result unused *)
    w <- get ;;
    modify (logged (Resume (playerPlays (env w))))
  else ret tt.

End BackgroundAudioModule.

(** ** Persisted preferences ([stores/audioStore.ts]) *)

Module useAudioStore.

(** [volume] ranges over the real numbers; NaN, which [Math.max] and
    [Math.min] hand through, is outside the model. *)
Definition setVolume (volume : Q) : M unit :=
  let clampedVolume := (Qmax 0 (Qmin 1 volume))%Q in
  modify (fun w =>
    withStore (Prefs.mk clampedVolume (Prefs.soundscapeId (store w))) w).

Definition setSoundscape (id : string) : M unit :=
  modify (fun w => withStore (Prefs.mk (Prefs.volume (store w)) id) w).

End useAudioStore.

(** ** The service wrapper ([services/audio/AudioService.ts]) *)

Module AudioService.

(** [Platform.OS === 'ios' && BackgroundAudioModule] *)
Definition moduleAvailable (w : World) : bool :=
  isIos (platformOS w) &&
  match nativeModule w with Some _ => true | None => false end.

(** [play()] is listed twice.  Both listings ask the native module first
    and return when it is playing; the listing in
    SIGNER_SOUNDSCAPE_INTEGRATION.md then also returns when the JavaScript
    flag is set ([jsStateCheck = true]), the one in
    BACKGROUND_AUDIO_IMPLEMENTATION.md does not ([jsStateCheck = false]). *)
Definition play (jsStateCheck : bool) : M unit :=
  w <- get ;;
  if moduleAvailable w then
    nativeIsPlaying <- BackgroundAudioModule.isPlaying ;;
    if nativeIsPlaying then
      modify (assigned true)
    else
      s <- get ;;
      if jsStateCheck && Service.isPlaying (service s) then ret tt
      else
        BackgroundAudioModule.play None ;;
        modify (assigned true)
  else ret tt.

(** Modelled from the spec: the body of [stop] is elided in the listing.
    It carries the platform guard of [play], stops the Engine (idempotent,
    always safe to call from Stopped) and clears the cached flag. *)
Definition stop : M unit :=
  w <- get ;;
  if moduleAvailable w then
    BackgroundAudioModule.stop ;;
    modify (assigned false)
  else ret tt.

(** Modelled from the spec: the body of [setVolume] is elided in the
    listing.  It carries the platform guard of [play] and applies the
    volume to the live handle through the Engine. *)
Definition setVolume (volume : Q) : M unit :=
  w <- get ;;
  if moduleAvailable w then
    BackgroundAudioModule.setVolume volume ;;
    ret tt
  else ret tt.

Definition getIsPlaying : M bool :=
  w <- get ;; ret (Service.isPlaying (service w)).

(** Modelled from the spec: [getIsPlayingAsync] is not listed.  It asks
    the Engine for ground truth ([queryIsPlaying]); without an Engine
    nothing is playing. *)
Definition getIsPlayingAsync : M bool :=
  w <- get ;;
  if moduleAvailable w then BackgroundAudioModule.isPlaying else ret false.

(** Modelled from the spec: [AudioService.setSoundscape] is not listed.
    [switchTrack(id)] validates against the Track Registry (NotFound fails
    fast without touching the Engine); if the referenced track is
    unavailable, the controller falls back to the designated default id. *)
Definition setSoundscape (id : string) : M unit :=
  match Soundscapes.getSoundscapeById id with
  | Soundscapes.Own c =>
      let target :=
        if Soundscapes.available c then id
        else Soundscapes.DEFAULT_SOUNDSCAPE_ID in
      match Soundscapes.getSoundscapeFilename target with
      | Ok (Some file) =>
          w <- get ;;
          if moduleAvailable w then
            BackgroundAudioModule.setSoundscape file ;;
            ret tt
          else ret tt
      | Ok None => throw AssetNotFound
      | Throw e => throw e
      end
  | _ => throw AssetNotFound
  end.

(** [startHealthCheck(onFailed, intervalMs)]; the interval handle is
    identified by its period. *)
Definition startHealthCheck (onFailed : Callback) (intervalMs : N) : M unit :=
  modify (fun w =>
    withService (Service.mk (Service.isPlaying (service w))
                            (Some intervalMs) (Some onFailed)) w).

(** One firing of the interval callback installed by [startHealthCheck]. *)
Definition healthCheck : M unit :=
  w <- get ;;
  if Service.isPlaying (service w) then
    nativeIsPlaying <- getIsPlayingAsync ;;
    if negb nativeIsPlaying then
      modify (assigned false) ;;
      s <- get ;;
      match Service.onHealthCheckFailed (service s) with
      | Some onFailed => modify (called onFailed)
      | None => ret tt
      end
    else ret tt
  else ret tt.

Definition stopHealthCheck : M unit :=
  modify (fun w =>
    match Service.healthCheckInterval (service w) with
    | Some _ =>
        withService (Service.mk (Service.isPlaying (service w)) None
                                (Service.onHealthCheckFailed (service w))) w
    | None => w
    end).

End AudioService.

(** ** Signer glue ([IglooService], [useSigner]) *)

Module IglooService.

(** Modelled from the spec: the node cleanup of [stopSigner] is elided in
    the listing.  The long-running task is an opaque collaborator; all
    that is kept of its cleanup is that the node is gone afterwards. *)
Definition cleanup : M unit := modify (withNode false).

(** Modelled from the spec: the startup of [startSigner] (node creation,
    relay connection, event listeners) is elided in the listing.  The
    long-running task is an opaque collaborator; all that is kept of its
    startup is the outcome: the node is set, or the start fails. *)
Definition startup : M unit :=
  w <- get ;;
  if nodeStarts (env w) then modify (withNode true)
  else throw (JsError "signer failed to start").

Definition stopSigner (keepAudio : bool) : M unit :=
  (* ... node cleanup ... *)
  cleanup ;;
  (* Stop background audio (unless we're restarting) *)
  if negb keepAudio then
    try AudioService.stop (fun _ => ret tt)
  else ret tt.

Definition startSigner (jsStateCheck : bool) : M unit :=
  w <- get ;;
  (* Don't start if already running - restart with audio preserved *)
  (if node w then stopSigner true else ret tt) ;;
  (* ... continue with startup ... *)
  startup ;;
  (* Start background audio to keep app alive in iOS background mode *)
  try (AudioService.play jsStateCheck) (fun _ => ret tt).

End IglooService.

Module useSigner.

Definition start (jsStateCheck : bool) : M unit :=
  w <- get ;;
  (if credentialsStored (env w) then ret tt
   else throw (JsError "No credentials found")) ;;
  let storedSoundscape := Prefs.soundscapeId (store w) in
  let storedVolume := Prefs.volume (store w) in
  (* Set soundscape before starting (configures which file to play) *)
  AudioService.setSoundscape storedSoundscape ;;
  IglooService.startSigner jsStateCheck ;;
  (* Apply volume AFTER signer starts (audio player must exist first) *)
  AudioService.setVolume storedVolume.

Definition stop : M unit := IglooService.stopSigner false.

End useSigner.

(** ** The signer screen ([app/(tabs)/signer.tsx]) *)

Module SignerTab.

(** A whole number as a template literal prints it. *)
Definition numberToString (n : Z) : string :=
  NilZero.string_of_int (Z.to_int n).

(** [Math.floor(a / b)] is [Z.div]; [a % b] takes the sign of [a] and is
    [Z.rem].  [seconds] is a whole number; the arithmetic of the code is
    that of doubles, which is this exact arithmetic for whole numbers
    below 2^53. *)
Definition formatUptime (seconds : Z) : string :=
  if (seconds <? 60)%Z then numberToString seconds ++ "s"
  else if (seconds <? 3600)%Z then
    numberToString (seconds / 60)%Z ++ "m "
      ++ numberToString (Z.rem seconds 60) ++ "s"
  else
    let hours := (seconds / 3600)%Z in
    let mins := (Z.rem seconds 3600 / 60)%Z in
    numberToString hours ++ "h " ++ numberToString mins ++ "m".

(** [pubkey.slice(0, 8)] and [pubkey.slice(-4)] on a key longer than 16
    characters. *)
Definition truncatePubkey (pubkey : string) : string :=
  if (String.length pubkey <=? 16)%nat then pubkey
  else
    substring 0 8 pubkey ++ "..."
      ++ substring (String.length pubkey - 4) 4 pubkey.

End SignerTab.

(** ** The echo challenge ([llm/implementation/onboarding-flow.md]) *)

Module Onboarding.

(** [b.toString(16)] *)
Definition toString16 (b : N) : string :=
  HexadecimalString.NilZero.string_of_uint (N.to_hex_uint b).

(** The first [k] characters of [padString] repeated; [rest] is what is
    left of the current repetition. *)
Fixpoint filler (k : nat) (padString rest : string) : string :=
  match k with
  | O => EmptyString
  | S k' =>
      match rest with
      | String c r => String c (filler k' padString r)
      | EmptyString =>
          match padString with
          | String c r => String c (filler k' padString r)
          | EmptyString => EmptyString
          end
      end
  end.

(** [s.padStart(targetLength, padString)] *)
Definition padStart (targetLength : nat) (padString : string) (s : string)
  : string :=
  filler (targetLength - String.length s) padString padString ++ s.

(** [generateHexChallenge]; [bytes] is the [Uint8Array] of [byteLength]
    entries after [getRandomValues] has filled it. *)
Definition generateHexChallenge (bytes : list byte) : string :=
  String.concat EmptyString
    (map (fun b => padStart 2 "0" (toString16 (Byte.to_N b))) bytes).

(** The checks [sendEcho] makes on a challenge: non-empty, of even
    length, hexadecimal digits only. *)
Definition isHexDigit (c : ascii) : bool :=
  let n := nat_of_ascii c in
  ((48 <=? n)%nat && (n <=? 57)%nat) || ((97 <=? n)%nat && (n <=? 102)%nat)
  || ((65 <=? n)%nat && (n <=? 70)%nat).

Fixpoint allChars (test : ascii -> bool) (s : string) : bool :=
  match s with
  | EmptyString => true
  | String c r => test c && allChars test r
  end.

Definition acceptableChallenge (challenge : string) : bool :=
  negb (String.length challenge =? 0)%nat
  && Nat.even (String.length challenge)
  && allChars isHexDigit challenge.

End Onboarding.

(** ** Calls on the native module, one after another *)

Inductive NativeCall : Type :=
| NativePlay (filename : option string)
| NativeStop
| NativeSetVolume (volume : Q)
| NativeIsPlaying
| NativeSetSoundscape (filename : string)
| NativeInterruption (type : BackgroundAudioModule.InterruptionType)
| NativeRouteChange (playerIsPlaying : bool).

Definition nativeCall (c : NativeCall) : M unit :=
  match c with
  | NativePlay filename => BackgroundAudioModule.play filename ;; ret tt
  | NativeStop => BackgroundAudioModule.stop ;; ret tt
  | NativeSetVolume volume => BackgroundAudioModule.setVolume volume ;; ret tt
  | NativeIsPlaying => BackgroundAudioModule.isPlaying ;; ret tt
  | NativeSetSoundscape filename =>
      BackgroundAudioModule.setSoundscape filename ;; ret tt
  | NativeInterruption type => BackgroundAudioModule.handleInterruption type
  | NativeRouteChange playerIsPlaying =>
      BackgroundAudioModule.handleRouteChange playerIsPlaying
  end.

Definition withEnv (e : Env) (w : World) : World :=
  mkWorld (platformOS w) e (nativeModule w) (service w) (store w) (node w)
          (engineLog w) (sentEvents w) (invoked w) (statusWrites w).

(** Each call meets the surroundings as they are at that moment. *)
Fixpoint nativeRun (calls : list (Env * NativeCall)) (w : World) : World :=
  match calls with
  | [] => w
  | (e, c) :: later => nativeRun later (exec (nativeCall c) (withEnv e w))
  end.

(** What the module keeps true of itself: a set [playing] flag comes with
    a player, and a player loops forever, has a volume in [0, 1] and a
    handle the module has handed out. *)
Definition playerSound (allocated : nat) (p : Player.t) : Prop :=
  (0 <= Player.volume p)%Q /\ (Player.volume p <= 1)%Q /\
  Player.numberOfLoops p = (-1)%Z /\
  Player.handle p < allocated.

Definition moduleSound (n : Swift.t) : Prop :=
  match Swift.audioPlayer n with
  | Some p => playerSound (Swift.allocated n) p
  | None => Swift.playing n = false
  end.

Definition nativeSound (w : World) : Prop :=
  match nativeModule w with
  | Some n => moduleSound n
  | None => True
  end.

(** ** Store actions, one after another *)

Inductive StoreAction : Type :=
| ActSetVolume (volume : Q)
| ActSetSoundscape (id : string).

Definition dispatch (a : StoreAction) : M unit :=
  match a with
  | ActSetVolume volume => useAudioStore.setVolume volume
  | ActSetSoundscape id => useAudioStore.setSoundscape id
  end.

Fixpoint dispatchAll (actions : list StoreAction) (w : World) : World :=
  match actions with
  | [] => w
  | a :: later => dispatchAll later (exec (dispatch a) w)
  end.

(** The soundscape the last [setSoundscape] of [actions] chose, if any. *)
Fixpoint lastSoundscape (current : string) (actions : list StoreAction)
  : string :=
  match actions with
  | [] => current
  | ActSetVolume _ :: later => lastSoundscape current later
  | ActSetSoundscape id :: later => lastSoundscape id later
  end.

(** ** Calls that interleave at [await]

    An [async] function runs without preemption up to its next [await];
    there another pending call may run.  A [Task] is what is left of a
    call: settled, or a segment to run when it is resumed. *)

#[local] Unset Elimination Schemes.
Inductive Task : Type :=
| Settled (r : Result unit)
| Pending (resume : World -> Task * World).
#[local] Set Elimination Schemes.

Module Async.

(** [AudioService.play], cut at its two [await]s. *)
Definition play (jsStateCheck : bool) : Task :=
  Pending (fun w =>
    if AudioService.moduleAvailable w then
      (* await BackgroundAudioModule.isPlaying() *)
      let (nativeIsPlaying, w1) := BackgroundAudioModule.isPlaying w in
      (Pending (fun w =>
         match nativeIsPlaying with
         | Throw e => (Settled (Throw e), w)
         | Ok true => (Settled (Ok tt), assigned true w)
         | Ok false =>
             if jsStateCheck && Service.isPlaying (service w)
             then (Settled (Ok tt), w)
             else
               (* await BackgroundAudioModule.play() *)
               let (started, w2) := BackgroundAudioModule.play None w in
               (Pending (fun w =>
                  match started with
                  | Ok _ => (Settled (Ok tt), assigned true w)
                  | Throw e => (Settled (Throw e), w)
                  end), w2)
         end), w1)
    else (Settled (Ok tt), w)).

Definition step (t : Task) (w : World) : Task * World :=
  match t with
  | Settled _ => (t, w)
  | Pending resume => resume w
  end.

(** One call running alone until it settles. *)
Fixpoint run (segments : nat) (t : Task) (w : World) : Task * World :=
  match segments with
  | O => (t, w)
  | S k => let (t', w') := step t w in run k t' w'
  end.

Fixpoint stepNth (i : nat) (ts : list Task) (w : World) : list Task * World :=
  match ts with
  | [] => ([], w)
  | t :: rest =>
      match i with
      | O => let (t', w') := step t w in (t' :: rest, w')
      | S j => let (rest', w') := stepNth j rest w in (t :: rest', w')
      end
  end.

(** The event loop resuming pending calls in the order of [picks]. *)
Fixpoint schedule (picks : list nat) (ts : list Task) (w : World)
  : list Task * World :=
  match picks with
  | [] => (ts, w)
  | i :: later => let (ts', w') := stepNth i ts w in schedule later ts' w'
  end.

End Async.

(** Calls made one after another: each completes (or fails) before the
    next begins. *)
Inductive Call : Type :=
| CallPlay
| CallStop
| CallSetSoundscape (id : string).

Definition perform (jsStateCheck : bool) (c : Call) : M unit :=
  match c with
  | CallPlay => AudioService.play jsStateCheck
  | CallStop => AudioService.stop
  | CallSetSoundscape id => AudioService.setSoundscape id
  end.

Fixpoint serial (jsStateCheck : bool) (calls : list Call) (w : World) : World :=
  match calls with
  | [] => w
  | c :: later => serial jsStateCheck later (exec (perform jsStateCheck c) w)
  end.

(** ** Reading the logs *)

Definition isStart (op : EngineOp) : bool :=
  match op with StartPlayback _ => true | _ => false end.

Definition isStop (op : EngineOp) : bool :=
  match op with StopPlayback => true | _ => false end.

Definition starts (log : list EngineOp) : nat := length (filter isStart log).

Definition stops (log : list EngineOp) : nat := length (filter isStop log).

(** The module's own [playing] flag; no module, no playback. *)
Definition nativePlaying (w : World) : bool :=
  match nativeModule w with
  | Some n => Swift.playing n
  | None => false
  end.

Definition currentFile (w : World) : option string :=
  option_map Swift.currentSoundscape (nativeModule w).

(** Replays a log (newest first) from an Engine that was playing or not
    ([live0]) and returns whether the Engine is playing at the end, and
    whether some start was issued while a playback was live. *)
Fixpoint engineScan (live0 : bool) (log : list EngineOp) : bool * bool :=
  match log with
  | [] => (live0, false)
  | op :: earlier =>
      let (live, overlapped) := engineScan live0 earlier in
      match op with
      | StartPlayback _ => (live, overlapped || live)
      | PlaybackStarted => (true, overlapped)
      | StopPlayback => (false, overlapped)
      | Resume ok => (live && ok, overlapped)
      | QueryIsPlaying | SetVolume _ | SetSoundscape _ => (live, overlapped)
      end
  end.

(** A start is for an available soundscape when its file is the file of
    a registry entry whose [available] flag is set. *)
Definition startsAvailable (op : EngineOp) : bool :=
  match op with
  | StartPlayback file =>
      existsb (fun c => String.eqb (Soundscapes.filename c) file)
              Soundscapes.getAvailableSoundscapes
  | _ => true
  end.

(** *** Session states *)

Inductive SessionState : Type :=
| Stopped
| Starting
| Playing
| Interrupted
| Resuming
| SwitchingTrack
| Failed (why : Reason).

(** Modelled from the spec: the listener that translates native events
    into session states is not listed.  Per the Controller's state
    machine: Playing -> Interrupted on [onInterruptionBegan];
    Interrupted -> Resuming -> Playing on [onInterruptionEnded] with
    resumed = true; Interrupted -> Failed on [onInterruptionEnded] with
    resumed = false.  The result lists the states the event makes the
    session enter, in order. *)
Definition onPlaybackStateChanged (e : PlaybackEvent) : list SessionState :=
  match ev_reason e with
  | interrupted => [Interrupted]
  | resumed => [Resuming; Playing]
  | resumeFailed => [Failed resumeFailed]
  end.

(** The states a session that was in [from] passes through as the events
    (newest first) arrive. *)
Definition statePath (from : SessionState) (events : list PlaybackEvent)
  : list SessionState :=
  from :: flat_map onPlaybackStateChanged (rev events).

(** The live player of the native module, if there is one. *)
Definition audioPlayerOf (w : World) : option Player.t :=
  match nativeModule w with
  | Some n => Swift.audioPlayer n
  | None => None
  end.

(** ** Sample worlds *)

Definition healthyEnv : Env :=
  mkEnv true ["ocean-waves"] true true true true.

Definition stoppedWorld : World :=
  boot ios healthyEnv (Ok Swift.initial).

Definition livePlayer : Player.t :=
  Player.mk 0 "ocean-waves" (3 # 10)%Q (-1)%Z.

Definition playingWorld : World :=
  mkWorld ios healthyEnv
          (Some (Swift.mk (Some livePlayer) true "ocean-waves" 1))
          (Service.mk true (Some 30000%N) (Some 7))
          Prefs.initial true [] [] [] [].

(** The module plays while the JavaScript flag is still unset. *)
Definition driftedWorld : World :=
  withService (Service.mk false None None) playingWorld.

(** The JavaScript flag is set while the module has stopped playing. *)
Definition stalledWorld : World :=
  withNative (Some (Swift.mk (Some livePlayer) false "ocean-waves" 1))
             playingWorld.

(** The user has chosen a soundscape that is not bundled yet. *)
Definition rainWorld : World :=
  withStore (Prefs.mk Soundscapes.DEFAULT_VOLUME "rain") stoppedWorld.

(** An interruption that begins and then ends. *)
Definition interruption : M unit :=
  BackgroundAudioModule.handleInterruption BackgroundAudioModule.began ;;
  BackgroundAudioModule.handleInterruption BackgroundAudioModule.ended.

(** ** Reading a number off the front of a text *)

Definition isDigit (c : ascii) : bool :=
  let n := nat_of_ascii c in ((48 <=? n)%nat && (n <=? 57)%nat).

Fixpoint spanDigits (s : string) : string * string :=
  match s with
  | EmptyString => (EmptyString, EmptyString)
  | String c r =>
      if isDigit c then
        let (digits, rest) := spanDigits r in (String c digits, rest)
      else (EmptyString, s)
  end.

Definition startsWithoutDigit (s : string) : bool :=
  match s with
  | EmptyString => true
  | String c _ => negb (isDigit c)
  end.

(** * Properties *)

(** ** Proof automation for asynchronous programs *)

Ltac unfold_async :=
  cbv beta iota zeta delta
      [exec outcome bind ret throw try get modify readNative writeNative
       AudioService.play AudioService.stop AudioService.setVolume
       AudioService.getIsPlayingAsync AudioService.healthCheck
       AudioService.moduleAvailable
       BackgroundAudioModule.play BackgroundAudioModule.stop
       BackgroundAudioModule.isPlaying BackgroundAudioModule.setVolume
       BackgroundAudioModule.startPlayback BackgroundAudioModule.stopPlayback
       BackgroundAudioModule.configureAndActivateAudioSession
       BackgroundAudioModule.setSoundscape BackgroundAudioModule.sendEvent
       BackgroundAudioModule.handleInterruption
       useAudioStore.setVolume useAudioStore.setSoundscape
       IglooService.stopSigner IglooService.startSigner
       IglooService.cleanup IglooService.startup
       nativePlaying isIos
       withNative withService withStore withNode logged emitted called assigned
       platformOS env nativeModule service store node engineLog sentEvents
       invoked statusWrites fst snd andb negb];
  cbn [Service.isPlaying Service.healthCheckInterval
       Service.onHealthCheckFailed Service.withIsPlaying
       Swift.audioPlayer Swift.playing Swift.currentSoundscape
       Swift.allocated Swift.withPlayer Swift.withPlaying
       Swift.withSoundscape Prefs.volume Prefs.soundscapeId
       sessionActivates bundle playerCreates playerPlays
       credentialsStored nodeStarts].

Ltac break_branch :=
  match goal with
  | |- context [if ?b then _ else _] => destruct b eqn:?
  | |- context [match ?x with Some _ => _ | None => _ end] => destruct x eqn:?
  end.

Ltac crunch := unfold_async; repeat (break_branch; unfold_async).

(** Names the operations a run has added in front of the log [base]. *)
Ltac log_prefix l base :=
  match l with
  | base => constr:(@nil EngineOp)
  | ?op :: ?earlier =>
      let p := log_prefix earlier base in constr:(op :: p)
  end.

Ltac give_prefix :=
  match goal with
  | |- exists new, ?l = (new ++ ?base)%list /\ _ =>
      let p := log_prefix l base in exists p
  end.

(** ** The registry *)

Lemma ownProperty_key (id : string) (c : Soundscapes.SoundscapeConfig) :
  Soundscapes.ownProperty Soundscapes.SOUNDSCAPE_REGISTRY id = Some c ->
  Soundscapes.id c = id.
Proof.
  unfold Soundscapes.SOUNDSCAPE_REGISTRY; simpl.
  repeat match goal with
         | |- context [String.eqb id ?k] =>
             destruct (String.eqb_spec id k) as [-> | _];
             [ intros [= <-]; reflexivity | ]
         end.
  discriminate.
Qed.

Lemma registry_keys_not_inherited (id : string) :
  Soundscapes.registered id = true -> Soundscapes.inherited id = false.
Proof.
  unfold Soundscapes.registered, Soundscapes.SOUNDSCAPE_REGISTRY; simpl.
  repeat match goal with
         | |- context [String.eqb id ?k] =>
             destruct (String.eqb_spec id k) as [-> | _];
             [ intros _; reflexivity | ]
         end.
  discriminate.
Qed.

(** C9, as stated, fails: for an id the registry does not hold,
    [getSoundscapeFilename] and [isSoundscapeAvailable] raise a TypeError
    instead of reporting NotFound, and [getSoundscapeById] hands back a
    member of [Object.prototype] for a name such as "constructor". *)
Lemma registry_lookup_unknown_id_raises :
  Soundscapes.registered "thunder" = false /\
  Soundscapes.getSoundscapeFilename "thunder" = Throw TypeError /\
  Soundscapes.isSoundscapeAvailable "thunder" = Throw TypeError /\
  Soundscapes.registered "constructor" = false /\
  Soundscapes.getSoundscapeById "constructor" =
    Soundscapes.Inherited "constructor".
Proof. repeat split; reflexivity. Qed.

(** C9 (amended): for every registered id the three lookups return that
    id's descriptor, its file name and its availability flag.  For any
    other id nothing is validated: [getSoundscapeById] evaluates to
    [undefined] (or to the inherited member when the id names a property
    of [Object.prototype]), and the two field lookups raise a TypeError on
    [undefined] (or yield [undefined] for an inherited name). *)
Theorem registry_lookup_by_cases (id : string) :
  match Soundscapes.ownProperty Soundscapes.SOUNDSCAPE_REGISTRY id with
  | Some c =>
      Soundscapes.id c = id /\
      Soundscapes.getSoundscapeById id = Soundscapes.Own c /\
      Soundscapes.getSoundscapeFilename id = Ok (Some (Soundscapes.filename c)) /\
      Soundscapes.isSoundscapeAvailable id = Ok (Some (Soundscapes.available c))
  | None =>
      if Soundscapes.inherited id then
        Soundscapes.getSoundscapeById id = Soundscapes.Inherited id /\
        Soundscapes.getSoundscapeFilename id = Ok None /\
        Soundscapes.isSoundscapeAvailable id = Ok None
      else
        Soundscapes.getSoundscapeById id = Soundscapes.Undefined /\
        Soundscapes.getSoundscapeFilename id = Throw TypeError /\
        Soundscapes.isSoundscapeAvailable id = Throw TypeError
  end.
Proof.
  unfold Soundscapes.getSoundscapeById, Soundscapes.getSoundscapeFilename,
    Soundscapes.isSoundscapeAvailable, Soundscapes.getProperty.
  destruct (Soundscapes.ownProperty Soundscapes.SOUNDSCAPE_REGISTRY id)
    as [c |] eqn:Hown.
  - split; [ exact (ownProperty_key id Hown) | repeat split ].
  - destruct (Soundscapes.inherited id); repeat split.
Qed.

(** ** Volume *)

Lemma clamp_order (v : Q) :
  (Qmax 0 (Qmin 1 v) == Qmin 1 (Qmax 0 v))%Q.
Proof.
  destruct (Qlt_le_dec v 0) as [Hneg | Hpos].
  - rewrite (Q.min_r 1 v) by (apply Qlt_le_weak, Qlt_trans with 0%Q; [ exact Hneg | reflexivity ]).
    rewrite (Q.max_l 0 v) by (apply Qlt_le_weak; exact Hneg).
    rewrite Q.min_r by discriminate.
    reflexivity.
  - destruct (Qlt_le_dec 1 v) as [Hbig | Hsmall].
    + rewrite (Q.min_l 1 v) by (apply Qlt_le_weak; exact Hbig).
      rewrite (Q.max_r 0 v) by exact Hpos.
      rewrite (Q.min_l 1 v) by (apply Qlt_le_weak; exact Hbig).
      rewrite Q.max_r by discriminate.
      reflexivity.
    + rewrite (Q.min_r 1 v) by exact Hsmall.
      rewrite (Q.max_r 0 v) by exact Hpos.
      rewrite (Q.min_r 1 v) by exact Hsmall.
      reflexivity.
Qed.

Lemma clamp_range (v : Q) :
  (0 <= Qmax 0 (Qmin 1 v) /\ Qmax 0 (Qmin 1 v) <= 1)%Q.
Proof.
  split.
  - apply Q.le_max_l.
  - apply Q.max_lub; [ discriminate | apply Q.le_min_l ].
Qed.

(** C6: the store keeps [max(0, min(1, v))], which is [min(1, max(0, v))]
    and lies in [0, 1], whatever the playback state of the world it is
    called in; nothing else changes.  The native [setVolume] makes the
    volume of the live player, if there is one, that same clamped value
    and leaves the player otherwise as it was.  In particular -0.5 is
    stored, and applied to the live player, as 0 and 1.7 as 1. *)
Theorem setVolume_clamps (v : Q) (w : World) :
  (Prefs.volume (store (exec (useAudioStore.setVolume v) w))
     == Qmin 1 (Qmax 0 v))%Q /\
  (0 <= Prefs.volume (store (exec (useAudioStore.setVolume v) w)) <= 1)%Q /\
  useAudioStore.setVolume v w =
    (Ok tt,
     withStore (Prefs.mk (Qmax 0 (Qmin 1 v)) (Prefs.soundscapeId (store w))) w) /\
  option_map Swift.audioPlayer
             (nativeModule (exec (BackgroundAudioModule.setVolume v) w)) =
    option_map (fun n => option_map (Player.withVolume (Qmax 0 (Qmin 1 v)))
                                    (Swift.audioPlayer n))
               (nativeModule w) /\
  Prefs.volume (store (exec (useAudioStore.setVolume (- (1 # 2))%Q) w)) = 0%Q /\
  Prefs.volume (store (exec (useAudioStore.setVolume (17 # 10)%Q) w)) = 1%Q /\
  option_map Player.volume
             (audioPlayerOf (exec (BackgroundAudioModule.setVolume v) w)) =
    option_map (fun _ => Qmax 0 (Qmin 1 v)) (audioPlayerOf w) /\
  option_map
    (fun p => (Player.handle p, Player.contentsOf p, Player.numberOfLoops p))
    (audioPlayerOf (exec (BackgroundAudioModule.setVolume v) w)) =
    option_map
      (fun p => (Player.handle p, Player.contentsOf p, Player.numberOfLoops p))
      (audioPlayerOf w) /\
  option_map Player.volume
             (audioPlayerOf
                (exec (BackgroundAudioModule.setVolume (- (1 # 2))%Q) w)) =
    option_map (fun _ => 0%Q) (audioPlayerOf w) /\
  option_map Player.volume
             (audioPlayerOf
                (exec (BackgroundAudioModule.setVolume (17 # 10)%Q) w)) =
    option_map (fun _ => 1%Q) (audioPlayerOf w).
Proof.
  split; [ apply clamp_order | ].
  split; [ apply (clamp_range v) | ].
  split; [ reflexivity | ].
  split;
    [ destruct w as [os e [n |] sv st nd lg ev inv sw]; reflexivity | ].
  split; [ reflexivity | ].
  split; [ reflexivity | ].
  destruct w as [os e [[[p | ] playing cur al] | ] sv st nd lg ev inv sw];
    repeat split; reflexivity.
Qed.

(** ** [play] *)

(** C1, as stated, fails: when the module is playing but the cached flag
    is unset (one of the "other cases"), [play] issues no start, in
    either listing; and in the listing with the JavaScript-state check it
    issues none either when the cached flag is set while the module
    reports that it is not playing. *)
Lemma play_no_start_when_only_native_plays :
  Service.isPlaying (service driftedWorld) = false /\
  nativePlaying driftedWorld = true /\
  starts (engineLog driftedWorld) = 0 /\
  starts (engineLog (exec (AudioService.play false) driftedWorld)) = 0 /\
  starts (engineLog (exec (AudioService.play true) driftedWorld)) = 0 /\
  Service.isPlaying (service stalledWorld) = true /\
  nativePlaying stalledWorld = false /\
  starts (engineLog stalledWorld) = 0 /\
  starts (engineLog (exec (AudioService.play true) stalledWorld)) = 0.
Proof. repeat split; reflexivity. Qed.

(** C1 (amended): [play] issues no start whenever the native module is
    missing or reports that it is playing, whatever the cached flag says;
    in the latter case it only sets the cached flag.  When the module
    reports that it is not playing, [play] issues exactly one start,
    unless the listing with the JavaScript-state check is followed and the
    cached flag is set. *)
Theorem play_start_decision (jsStateCheck : bool) (w : World) :
  starts (engineLog (exec (AudioService.play jsStateCheck) w)) =
    starts (engineLog w) +
    (if AudioService.moduleAvailable w then
       if nativePlaying w then 0
       else if jsStateCheck && Service.isPlaying (service w) then 0 else 1
     else 0) /\
  (if AudioService.moduleAvailable w && nativePlaying w
   then AudioService.play jsStateCheck w =
          (Ok tt, assigned true (logged QueryIsPlaying w))
   else True).
Proof.
  destruct w as [os e nm sv st nd lg ev inv sw].
  split.
  - destruct os, nm as [n |]; crunch; unfold starts; cbn; try lia; congruence.
  - destruct os, nm as [n |]; crunch; try exact I; try reflexivity; congruence.
Qed.

(** ** Missing native module *)



(** ** Health check *)

(** C3: a health-check tick that finds the cached flag set while the
    module reports that it is not playing clears the flag and runs the
    [onHealthCheckFailed] callback exactly once; it sends no native event,
    and a further tick changes nothing. *)
Theorem healthCheck_reports_divergence_once
  (w : World) (n : Swift.t) (onFailed : Callback) :
  platformOS w = ios ->
  nativeModule w = Some n ->
  Swift.playing n = false ->
  Service.isPlaying (service w) = true ->
  Service.onHealthCheckFailed (service w) = Some onFailed ->
  outcome AudioService.healthCheck w = Ok tt /\
  Service.isPlaying (service (exec AudioService.healthCheck w)) = false /\
  invoked (exec AudioService.healthCheck w) = onFailed :: invoked w /\
  sentEvents (exec AudioService.healthCheck w) = sentEvents w /\
  AudioService.healthCheck (exec AudioService.healthCheck w) =
    (Ok tt, exec AudioService.healthCheck w).
Proof.
  destruct w as [os e nm [js hc cb] st nd lg ev inv sw]; cbn.
  intros -> -> Hstopped -> ->.
  unfold_async. rewrite Hstopped. unfold_async. repeat split.
Qed.

Lemma healthCheck_reports_divergence_once_witness :
  outcome AudioService.healthCheck stalledWorld = Ok tt /\
  Service.isPlaying (service (exec AudioService.healthCheck stalledWorld))
    = false /\
  invoked (exec AudioService.healthCheck stalledWorld)
    = 7 :: invoked stalledWorld /\
  sentEvents (exec AudioService.healthCheck stalledWorld)
    = sentEvents stalledWorld /\
  AudioService.healthCheck (exec AudioService.healthCheck stalledWorld) =
    (Ok tt, exec AudioService.healthCheck stalledWorld).
Proof.
  apply (@healthCheck_reports_divergence_once stalledWorld
           (Swift.mk (Some livePlayer) false "ocean-waves" 1) 7);
    reflexivity.
Defined.

(** ** Interruptions *)

(** C7: when an interruption begins and then ends while the module is
    playing, and the platform resumes the player, the module sends
    "interrupted" and then "resumed", which take the session through
    Playing, Interrupted, Resuming, Playing.  No start is issued: the
    module keeps its player and only asks it to play again. *)
Theorem interruption_resumes_existing_player
  (w : World) (n : Swift.t) (p : Player.t) :
  nativeModule w = Some n ->
  Swift.playing n = true ->
  Swift.audioPlayer n = Some p ->
  sessionActivates (env w) = true ->
  playerPlays (env w) = true ->
  outcome interruption w = Ok tt /\
  sentEvents (exec interruption w) =
    mkEvent true resumed :: mkEvent false interrupted :: sentEvents w /\
  statePath Playing [mkEvent true resumed; mkEvent false interrupted] =
    [Playing; Interrupted; Resuming; Playing] /\
  nativeModule (exec interruption w) = Some n /\
  engineLog (exec interruption w) = Resume true :: engineLog w /\
  starts (engineLog (exec interruption w)) = starts (engineLog w).
Proof.
  destruct w as [os e nm sv st nd lg ev inv sw]; cbn.
  intros -> Hplaying Hplayer Hsession Hplays.
  unfold interruption. unfold_async.
  rewrite Hplaying, Hsession, Hplayer, Hplays.
  unfold_async. repeat split.
Qed.

Lemma interruption_resumes_existing_player_witness :
  outcome interruption playingWorld = Ok tt /\
  sentEvents (exec interruption playingWorld) =
    mkEvent true resumed :: mkEvent false interrupted
      :: sentEvents playingWorld /\
  statePath Playing [mkEvent true resumed; mkEvent false interrupted] =
    [Playing; Interrupted; Resuming; Playing] /\
  nativeModule (exec interruption playingWorld) =
    Some (Swift.mk (Some livePlayer) true "ocean-waves" 1) /\
  engineLog (exec interruption playingWorld) =
    Resume true :: engineLog playingWorld /\
  starts (engineLog (exec interruption playingWorld)) =
    starts (engineLog playingWorld).
Proof.
  apply (@interruption_resumes_existing_player playingWorld
           (Swift.mk (Some livePlayer) true "ocean-waves" 1) livePlayer);
    reflexivity.
Defined.

(** ** Changing the soundscape *)

(** C5: for an id the registry does not hold, [AudioService.setSoundscape]
    fails with AssetNotFound and leaves the whole world as it was: no
    Engine operation is logged, and neither the module, the service nor
    the store changes. *)
Theorem setSoundscape_rejects_unregistered_id (id : string) (w : World) :
  Soundscapes.registered id = false ->
  AudioService.setSoundscape id w = (Throw AssetNotFound, w) /\
  engineLog (exec (AudioService.setSoundscape id) w) = engineLog w /\
  nativeModule (exec (AudioService.setSoundscape id) w) = nativeModule w /\
  service (exec (AudioService.setSoundscape id) w) = service w /\
  store (exec (AudioService.setSoundscape id) w) = store w.
Proof.
  intros Hunknown.
  assert (Hfails : AudioService.setSoundscape id w = (Throw AssetNotFound, w)).
  { unfold AudioService.setSoundscape, Soundscapes.getSoundscapeById,
      Soundscapes.getProperty.
    unfold Soundscapes.registered in Hunknown.
    destruct (Soundscapes.ownProperty Soundscapes.SOUNDSCAPE_REGISTRY id);
      [ discriminate | ].
    destruct (Soundscapes.inherited id); reflexivity. }
  unfold exec. rewrite Hfails. repeat split.
Qed.

Lemma setSoundscape_rejects_unregistered_id_witness :
  AudioService.setSoundscape "thunder" playingWorld
    = (Throw AssetNotFound, playingWorld) /\
  engineLog (exec (AudioService.setSoundscape "thunder") playingWorld)
    = engineLog playingWorld /\
  nativeModule (exec (AudioService.setSoundscape "thunder") playingWorld)
    = nativeModule playingWorld /\
  service (exec (AudioService.setSoundscape "thunder") playingWorld)
    = service playingWorld /\
  store (exec (AudioService.setSoundscape "thunder") playingWorld)
    = store playingWorld.
Proof.
  apply (@setSoundscape_rejects_unregistered_id "thunder" playingWorld).
  reflexivity.
Defined.

(** The two [setSoundscape] below the service do not consult the
    registry.  The store records whatever id it is given and returns
    normally, touching nothing else.  The native [setSoundscape] records
    whatever file name it is given; when the module is not playing it does
    nothing more, and when it is playing it stops the playback and starts
    it again with that file, the call failing only if that start fails
    (error code 1 when the file is not bundled). *)
Theorem setSoundscape_is_unvalidated (id file : string) (w : World) :
  useAudioStore.setSoundscape id w =
    (Ok tt, withStore (Prefs.mk (Prefs.volume (store w)) id) w) /\
  match nativeModule w with
  | None => BackgroundAudioModule.setSoundscape file w = (Throw TypeError, w)
  | Some n =>
      currentFile (exec (BackgroundAudioModule.setSoundscape file) w)
        = Some file /\
      if Swift.playing n then
        engineLog (exec (BackgroundAudioModule.setSoundscape file) w) =
          ((if sessionActivates (env w) && bundled (env w) file
               && playerCreates (env w) && playerPlays (env w)
            then [PlaybackStarted] else [])
           ++ StartPlayback file :: StopPlayback :: SetSoundscape file
           :: engineLog w)%list /\
        outcome (BackgroundAudioModule.setSoundscape file) w =
          (if sessionActivates (env w) then
             if bundled (env w) file then
               if playerCreates (env w) then
                 if playerPlays (env w) then Ok true else Throw (NSError 2)
               else Throw AVFoundationError
             else Throw (NSError 1)
           else Throw AVFoundationError)
      else
        BackgroundAudioModule.setSoundscape file w =
          (Ok true,
           withNative (Some (Swift.withSoundscape file n))
                      (logged (SetSoundscape file) w))
  end.
Proof.
  split; [ reflexivity | ].
  destruct w as [os e nm sv st nd lg ev inv sw]; cbn [nativeModule].
  destruct nm as [[pl playing cur al] |]; [ | reflexivity ].
  unfold currentFile; cbn [Swift.playing env engineLog].
  destruct playing.
  - split; [ | split ]; crunch; reflexivity.
  - split; reflexivity.
Qed.

(** ** Restarting the signer *)

(** With [keepAudio] the stop step only clears the node. *)
Lemma stopSigner_keepAudio (w : World) :
  IglooService.stopSigner true w = (Ok tt, withNode false w).
Proof. reflexivity. Qed.

(** C4: when [startSigner] is called while the signer runs and the
    cached flag says playing, the restart (stop with [keepAudio], then a
    fresh start that succeeds) issues no Engine stop at any point, and the
    cached flag is never written with anything but "playing": it is set
    after the stop step and at the end.  When the module confirms that it
    is playing, the only Engine operation of the whole restart is the
    query. *)
Theorem restart_keeps_audio (jsStateCheck : bool) (w : World) :
  node w = true ->
  Service.isPlaying (service w) = true ->
  nodeStarts (env w) = true ->
  stops (engineLog (exec (IglooService.stopSigner true) w))
    = stops (engineLog w) /\
  Service.isPlaying (service (exec (IglooService.stopSigner true) w)) = true /\
  outcome (IglooService.startSigner jsStateCheck) w = Ok tt /\
  stops (engineLog (exec (IglooService.startSigner jsStateCheck) w))
    = stops (engineLog w) /\
  Service.isPlaying
    (service (exec (IglooService.startSigner jsStateCheck) w)) = true /\
  (statusWrites (exec (IglooService.startSigner jsStateCheck) w)
     = statusWrites w \/
   statusWrites (exec (IglooService.startSigner jsStateCheck) w)
     = true :: statusWrites w) /\
  (if AudioService.moduleAvailable w && nativePlaying w then
     engineLog (exec (IglooService.startSigner jsStateCheck) w)
       = QueryIsPlaying :: engineLog w
   else True).
Proof.
  destruct w as [os e nm [js hc cb] st nd lg ev inv sw]; cbn.
  intros -> -> Hnode.
  split; [ reflexivity | ].
  split; [ reflexivity | ].
  unfold_async; rewrite Hnode; unfold_async.
  destruct os, nm as [[pl playing cur al] |], jsStateCheck;
    crunch; unfold stops; cbn; repeat split; try reflexivity;
    try (left; reflexivity); try (right; reflexivity); try congruence.
Qed.

Lemma restart_keeps_audio_witness :
  stops (engineLog (exec (IglooService.stopSigner true) playingWorld))
    = stops (engineLog playingWorld) /\
  Service.isPlaying
    (service (exec (IglooService.stopSigner true) playingWorld)) = true /\
  outcome (IglooService.startSigner true) playingWorld = Ok tt /\
  stops (engineLog (exec (IglooService.startSigner true) playingWorld))
    = stops (engineLog playingWorld) /\
  Service.isPlaying
    (service (exec (IglooService.startSigner true) playingWorld)) = true /\
  (statusWrites (exec (IglooService.startSigner true) playingWorld)
     = statusWrites playingWorld \/
   statusWrites (exec (IglooService.startSigner true) playingWorld)
     = true :: statusWrites playingWorld) /\
  (if AudioService.moduleAvailable playingWorld && nativePlaying playingWorld
   then
     engineLog (exec (IglooService.startSigner true) playingWorld)
       = QueryIsPlaying :: engineLog playingWorld
   else True).
Proof.
  apply (@restart_keeps_audio true playingWorld); reflexivity.
Defined.

(** ** Falling back to the default soundscape *)

Lemma setSoundscape_of_unavailable
  (id : string) (c : Soundscapes.SoundscapeConfig) (w : World) :
  Soundscapes.getSoundscapeById id = Soundscapes.Own c ->
  Soundscapes.available c = false ->
  AudioService.setSoundscape id w =
    if AudioService.moduleAvailable w then
      (BackgroundAudioModule.setSoundscape "ocean-waves" ;; ret tt) w
    else (Ok tt, w).
Proof.
  intros Hown Hflag. unfold AudioService.setSoundscape.
  rewrite Hown, Hflag.
  change (Soundscapes.getSoundscapeFilename Soundscapes.DEFAULT_SOUNDSCAPE_ID)
    with (@Ok (option string) (Some "ocean-waves")).
  unfold bind, get, ret.
  destruct (AudioService.moduleAvailable w); reflexivity.
Qed.

(** C8: when the stored soundscape id names a registry entry whose
    [available] flag is unset, every start issued while [useSigner.start]
    runs is for the file of an available soundscape, and, when the native
    module is there and credentials are stored, the module is left
    configured with the default soundscape's file. *)
Theorem start_falls_back_to_default
  (jsStateCheck : bool) (w : World) (c : Soundscapes.SoundscapeConfig) :
  Soundscapes.getSoundscapeById (Prefs.soundscapeId (store w))
    = Soundscapes.Own c ->
  Soundscapes.available c = false ->
  exists new,
    engineLog (exec (useSigner.start jsStateCheck) w)
      = (new ++ engineLog w)%list /\
    forallb startsAvailable new = true /\
    (if AudioService.moduleAvailable w && credentialsStored (env w)
     then currentFile (exec (useSigner.start jsStateCheck) w)
            = Some "ocean-waves"
     else True).
Proof.
  intros Hown Hflag.
  unfold useSigner.start.
  destruct w as [os e nm sv [vol sid] nd lg ev inv sw].
  cbn [store Prefs.soundscapeId] in Hown.
  unfold_async.
  destruct (credentialsStored e); unfold_async;
    [ | exists []; repeat split; destruct os, nm; exact I ].
  rewrite (@setSoundscape_of_unavailable _ _ _ Hown Hflag).
  unfold currentFile.
  destruct os, nm as [[pl playing cur al] |], jsStateCheck;
    crunch; give_prefix; repeat split;
    try reflexivity; try exact I; congruence.
Qed.

(** With "rain" stored, a start from the stopped world plays the ocean. *)
Lemma start_falls_back_to_default_witness :
  exists new,
    engineLog (exec (useSigner.start true) rainWorld)
      = (new ++ engineLog rainWorld)%list /\
    forallb startsAvailable new = true /\
    (if AudioService.moduleAvailable rainWorld
        && credentialsStored (env rainWorld)
     then currentFile (exec (useSigner.start true) rainWorld)
            = Some "ocean-waves"
     else True).
Proof.
  apply (@start_falls_back_to_default true rainWorld
           (Soundscapes.mkConfig "rain" "Rain" "Soft rainfall on leaves"
                                 "rain" false));
    reflexivity.
Defined.

(** ** Calls one after another, and calls that interleave *)

(** Running the segments of [Async.play] without anything in between is
    [AudioService.play]. *)
Lemma play_alone_is_play (jsStateCheck : bool) (w : World) :
  Async.run 3 (Async.play jsStateCheck) w =
    (Settled (outcome (AudioService.play jsStateCheck) w),
     exec (AudioService.play jsStateCheck) w).
Proof.
  destruct w as [os e nm sv st nd lg ev inv sw].
  unfold Async.run, Async.step, Async.play.
  destruct os, nm as [[pl playing cur al] |], jsStateCheck;
    crunch; try reflexivity; congruence.
Qed.

Lemma setSoundscape_shape (id : string) (w : World) :
  (exists e, AudioService.setSoundscape id w = (Throw e, w)) \/
  AudioService.setSoundscape id w = (Ok tt, w) \/
  (exists file,
     AudioService.setSoundscape id w =
       (BackgroundAudioModule.setSoundscape file ;; ret tt) w).
Proof.
  unfold AudioService.setSoundscape.
  destruct (Soundscapes.getSoundscapeById id) as [c | k |];
    try (left; eexists; reflexivity).
  destruct (Soundscapes.getSoundscapeFilename _) as [[file |] | e];
    try (left; eexists; reflexivity).
  destruct (AudioService.moduleAvailable w) eqn:Havailable.
  - right; right; exists file.
    unfold bind at 1; unfold get; cbv beta iota.
    rewrite Havailable; reflexivity.
  - right; left.
    unfold bind at 1; unfold get; cbv beta iota.
    rewrite Havailable; reflexivity.
Qed.

Lemma native_setSoundscape_keeps_scan
  (file : string) (live0 : bool) (w : World) :
  engineScan live0 (engineLog w) = (nativePlaying w, false) ->
  engineScan live0
    (engineLog (exec (BackgroundAudioModule.setSoundscape file ;; ret tt) w)) =
  (nativePlaying (exec (BackgroundAudioModule.setSoundscape file ;; ret tt) w),
   false).
Proof.
  destruct w as [os e nm sv st nd lg ev inv sw].
  unfold nativePlaying at 1; cbn [engineLog nativeModule].
  intros Hscan.
  destruct nm as [[pl playing cur al] |];
    crunch; cbn [engineScan]; rewrite ?Hscan; cbn;
    try reflexivity; congruence.
Qed.

Lemma perform_keeps_scan
  (jsStateCheck : bool) (c : Call) (live0 : bool) (w : World) :
  engineScan live0 (engineLog w) = (nativePlaying w, false) ->
  engineScan live0 (engineLog (exec (perform jsStateCheck c) w)) =
    (nativePlaying (exec (perform jsStateCheck c) w), false).
Proof.
  intros Hscan.
  destruct c as [ | | id]; unfold perform.
  - destruct w as [os e nm sv st nd lg ev inv sw].
    unfold nativePlaying at 1 in Hscan; cbn [engineLog nativeModule] in Hscan.
    destruct os, nm as [[pl playing cur al] |], jsStateCheck;
      crunch; cbn [engineScan]; rewrite ?Hscan; cbn;
      try reflexivity; congruence.
  - destruct w as [os e nm sv st nd lg ev inv sw].
    unfold nativePlaying at 1 in Hscan; cbn [engineLog nativeModule] in Hscan.
    destruct os, nm as [[pl playing cur al] |];
      crunch; cbn [engineScan]; rewrite ?Hscan; cbn;
      try reflexivity; congruence.
  - destruct (setSoundscape_shape id w) as [[e He] | [Hnone | [file Hfile]]].
    + unfold exec; rewrite He; exact Hscan.
    + unfold exec; rewrite Hnone; exact Hscan.
    + unfold exec; rewrite Hfile.
      exact (@native_setSoundscape_keeps_scan file live0 w Hscan).
Qed.

(** C2, as stated, fails: nothing serializes the calls.  Two [play()]
    calls that interleave at their [await]s both find the module silent
    and both start a playback, the second while the first is live. *)
Lemma concurrent_play_starts_twice :
  engineLog (snd (Async.schedule [0; 1; 0; 1; 0; 1]
                    [Async.play true; Async.play true] stoppedWorld)) =
    [PlaybackStarted; StartPlayback "ocean-waves";
     PlaybackStarted; StartPlayback "ocean-waves";
     QueryIsPlaying; QueryIsPlaying] /\
  snd (engineScan (nativePlaying stoppedWorld)
         (engineLog (snd (Async.schedule [0; 1; 0; 1; 0; 1]
                            [Async.play true; Async.play true] stoppedWorld))))
    = true /\
  fst (Async.schedule [0; 1; 0; 1; 0; 1]
         [Async.play true; Async.play true] stoppedWorld) =
    [Settled (Ok tt); Settled (Ok tt)].
Proof. repeat split; reflexivity. Qed.

(** C2 (amended): the service holds no lock; what keeps starts apart is
    that [play] asks the module whether it is playing before it starts.
    For [play], [stop] and [setSoundscape] calls that run one after
    another, each to completion, no start is ever issued while a playback
    is live: a log free of overlapping starts stays free of them. *)
Theorem serial_calls_never_overlap
  (jsStateCheck : bool) (calls : list Call) (live0 : bool) (w : World) :
  engineScan live0 (engineLog w) = (nativePlaying w, false) ->
  engineScan live0 (engineLog (serial jsStateCheck calls w)) =
    (nativePlaying (serial jsStateCheck calls w), false).
Proof.
  revert w.
  induction calls as [ | c later IH]; intros w Hscan.
  - exact Hscan.
  - cbn [serial]. apply IH. apply perform_keeps_scan. exact Hscan.
Qed.

Lemma serial_calls_never_overlap_witness :
  engineScan false
    (engineLog (serial true [CallPlay; CallPlay; CallSetSoundscape "rain";
                             CallStop; CallPlay] stoppedWorld)) =
    (nativePlaying (serial true [CallPlay; CallPlay; CallSetSoundscape "rain";
                                 CallStop; CallPlay] stoppedWorld), false).
Proof.
  apply (@serial_calls_never_overlap true
           [CallPlay; CallPlay; CallSetSoundscape "rain"; CallStop; CallPlay]
           false stoppedWorld).
  reflexivity.
Defined.

(** * Further properties of the code *)

Ltac unfold_calls :=
  cbv beta iota zeta delta
      [nativeCall nativeRun withEnv dispatch
       BackgroundAudioModule.handleRouteChange
       useSigner.start useSigner.stop];
  unfold_async; cbn [option_map].

Ltac crunch_calls := unfold_calls; repeat (break_branch; unfold_calls).

(** ** The registry as a listing *)

(** X1: every soundscape the registry lists is found again under its own
    id; the available ones are exactly the listed ones whose flag is set;
    the default soundscape is among them; and no two listed soundscapes
    share a file name. *)
Theorem registry_listing_consistent :
  (forall c, In c Soundscapes.getAllSoundscapes ->
     Soundscapes.getSoundscapeById (Soundscapes.id c) = Soundscapes.Own c) /\
  (forall c, In c Soundscapes.getAvailableSoundscapes <->
     In c Soundscapes.getAllSoundscapes /\ Soundscapes.available c = true) /\
  (exists c,
     Soundscapes.getSoundscapeById Soundscapes.DEFAULT_SOUNDSCAPE_ID
       = Soundscapes.Own c /\
     In c Soundscapes.getAvailableSoundscapes) /\
  (forall c d, In c Soundscapes.getAllSoundscapes ->
     In d Soundscapes.getAllSoundscapes ->
     Soundscapes.filename c = Soundscapes.filename d -> c = d).
Proof.
  split; [ | split; [ | split ] ].
  - intros c Hin. cbn in Hin.
    repeat (destruct Hin as [<- | Hin]; [ reflexivity | ]).
    destruct Hin.
  - intros c. unfold Soundscapes.getAvailableSoundscapes.
    apply filter_In.
  - eexists. split; [ reflexivity | ]. cbn. left; reflexivity.
  - intros c d Hc Hd. cbn in Hc, Hd.
    repeat (destruct Hc as [<- | Hc]);
      repeat (destruct Hd as [<- | Hd]);
      try contradiction; cbn; intros Hfile;
      try reflexivity; discriminate.
Qed.

(** ** The store under any sequence of actions *)

Lemma clamp_fixed (v : Q) :
  Qmax 0 (Qmin 1 (Qmax 0 (Qmin 1 v))) = Qmax 0 (Qmin 1 v).
Proof.
  unfold Qmax, Qmin, GenericMinMax.gmax, GenericMinMax.gmin.
  destruct (1 ?= v)%Q eqn:H1v.
  - reflexivity.
  - reflexivity.
  - destruct (0 ?= v)%Q eqn:H0v.
    + reflexivity.
    + rewrite H1v, H0v. reflexivity.
    + reflexivity.
Qed.

(** X2: whatever sequence of [setVolume] and [setSoundscape] actions the
    store receives, the volumes being real numbers (not NaN), a volume
    that was in [0, 1] stays in [0, 1], the
    selected soundscape is the one of the last [setSoundscape], and
    nothing but the store changes. *)
Theorem store_actions_keep_volume_in_range
  (actions : list StoreAction) (w : World) :
  (0 <= Prefs.volume (store w) <= 1)%Q ->
  (0 <= Prefs.volume (store (dispatchAll actions w)) <= 1)%Q /\
  Prefs.soundscapeId (store (dispatchAll actions w)) =
    lastSoundscape (Prefs.soundscapeId (store w)) actions /\
  dispatchAll actions w = withStore (store (dispatchAll actions w)) w.
Proof.
  revert w. induction actions as [ | a later IH]; intros w Hrange.
  - cbn. repeat split; try apply Hrange. destruct w; reflexivity.
  - cbn [dispatchAll lastSoundscape].
    destruct a as [v | id].
    + destruct (IH (exec (dispatch (ActSetVolume v)) w)) as (Hr & Hs & Hw).
      { cbn. apply clamp_range. }
      split; [ exact Hr | ]. split; [ exact Hs | ].
      rewrite Hw at 1. destruct w; reflexivity.
    + destruct (IH (exec (dispatch (ActSetSoundscape id)) w)) as (Hr & Hs & Hw).
      { cbn. exact Hrange. }
      split; [ exact Hr | ]. split; [ exact Hs | ].
      rewrite Hw at 1. destruct w; reflexivity.
Qed.

Lemma store_actions_keep_volume_in_range_witness :
  (0 <= Prefs.volume
          (store (dispatchAll [ActSetVolume (17 # 10)%Q; ActSetSoundscape "rain";
                               ActSetVolume (- (1 # 2))%Q] stoppedWorld))
     <= 1)%Q /\
  Prefs.soundscapeId
    (store (dispatchAll [ActSetVolume (17 # 10)%Q; ActSetSoundscape "rain";
                         ActSetVolume (- (1 # 2))%Q] stoppedWorld)) =
    lastSoundscape (Prefs.soundscapeId (store stoppedWorld))
      [ActSetVolume (17 # 10)%Q; ActSetSoundscape "rain";
       ActSetVolume (- (1 # 2))%Q] /\
  dispatchAll [ActSetVolume (17 # 10)%Q; ActSetSoundscape "rain";
               ActSetVolume (- (1 # 2))%Q] stoppedWorld =
    withStore
      (store (dispatchAll [ActSetVolume (17 # 10)%Q; ActSetSoundscape "rain";
                           ActSetVolume (- (1 # 2))%Q] stoppedWorld))
      stoppedWorld.
Proof.
  apply (@store_actions_keep_volume_in_range
           [ActSetVolume (17 # 10)%Q; ActSetSoundscape "rain";
            ActSetVolume (- (1 # 2))%Q] stoppedWorld).
  split; discriminate.
Defined.

(** X3: a volume already in [0, 1] is stored as it is, and storing a
    stored volume again changes nothing. *)
Theorem setVolume_keeps_values_in_range (v : Q) (w : World) :
  (0 <= v <= 1)%Q ->
  (Prefs.volume (store (exec (useAudioStore.setVolume v) w)) == v)%Q /\
  exec (useAudioStore.setVolume
          (Prefs.volume (store (exec (useAudioStore.setVolume v) w))))
       (exec (useAudioStore.setVolume v) w)
    = exec (useAudioStore.setVolume v) w.
Proof.
  intros [Hlow Hhigh]. split.
  - cbn. rewrite (Q.min_r 1 v) by exact Hhigh.
    apply Q.max_r. exact Hlow.
  - destruct w as [os e nm sv st nd lg ev inv sw]. cbn.
    unfold withStore; cbn. rewrite clamp_fixed. reflexivity.
Qed.

Lemma setVolume_keeps_values_in_range_witness :
  (Prefs.volume (store (exec (useAudioStore.setVolume (1 # 2)%Q) stoppedWorld))
     == (1 # 2))%Q /\
  exec (useAudioStore.setVolume
          (Prefs.volume
             (store (exec (useAudioStore.setVolume (1 # 2)%Q) stoppedWorld))))
       (exec (useAudioStore.setVolume (1 # 2)%Q) stoppedWorld)
    = exec (useAudioStore.setVolume (1 # 2)%Q) stoppedWorld.
Proof.
  apply (@setVolume_keeps_values_in_range (1 # 2)%Q stoppedWorld).
  split; discriminate.
Defined.

(** ** Starting playback *)

(** X4: [startPlayback] announces the start of the current soundscape
    and then either succeeds, leaving the module playing with a fresh
    player on that soundscape at volume 0.3, looping forever, or throws
    without touching the [playing] flag or the current soundscape: an
    AVFoundation error or error code 1 (file not bundled) with the module
    as it was, or error code 2 (the player did not start) with the new
    player already in place. *)
Theorem startPlayback_outcomes (w : World) (n : Swift.t) :
  nativeModule w = Some n ->
  engineLog (exec BackgroundAudioModule.startPlayback w) =
    ((if sessionActivates (env w)
         && bundled (env w) (Swift.currentSoundscape n)
         && playerCreates (env w) && playerPlays (env w)
      then [PlaybackStarted] else [])
     ++ StartPlayback (Swift.currentSoundscape n) :: engineLog w)%list /\
  match outcome BackgroundAudioModule.startPlayback w with
  | Ok started =>
      started = true /\
      nativeModule (exec BackgroundAudioModule.startPlayback w) =
        Some (Swift.mk
                (Some (Player.mk (Swift.allocated n)
                                 (Swift.currentSoundscape n)
                                 (3 # 10)%Q (-1)%Z))
                true (Swift.currentSoundscape n) (S (Swift.allocated n)))
  | Throw e =>
      nativePlaying (exec BackgroundAudioModule.startPlayback w)
        = Swift.playing n /\
      currentFile (exec BackgroundAudioModule.startPlayback w)
        = Some (Swift.currentSoundscape n) /\
      ((e = AVFoundationError /\
        nativeModule (exec BackgroundAudioModule.startPlayback w) = Some n) \/
       (e = NSError 1 /\
        bundled (env w) (Swift.currentSoundscape n) = false /\
        nativeModule (exec BackgroundAudioModule.startPlayback w) = Some n) \/
       (e = NSError 2 /\
        playerPlays (env w) = false /\
        option_map Player.handle
          (match nativeModule (exec BackgroundAudioModule.startPlayback w) with
           | Some n' => Swift.audioPlayer n'
           | None => None
           end) = Some (Swift.allocated n)))
  end.
Proof.
  destruct w as [os e nm sv st nd lg ev inv sw]; cbn [nativeModule env engineLog].
  intros ->. destruct n as [pl playing cur al].
  unfold currentFile.
  crunch; cbn; repeat split; auto.
Qed.

Lemma startPlayback_outcomes_witness :
  engineLog (exec BackgroundAudioModule.startPlayback stoppedWorld) =
    ((if sessionActivates (env stoppedWorld)
         && bundled (env stoppedWorld)
              (Swift.currentSoundscape Swift.initial)
         && playerCreates (env stoppedWorld) && playerPlays (env stoppedWorld)
      then [PlaybackStarted] else [])
     ++ StartPlayback (Swift.currentSoundscape Swift.initial)
     :: engineLog stoppedWorld)%list /\
  match outcome BackgroundAudioModule.startPlayback stoppedWorld with
  | Ok started =>
      started = true /\
      nativeModule (exec BackgroundAudioModule.startPlayback stoppedWorld) =
        Some (Swift.mk
                (Some (Player.mk (Swift.allocated Swift.initial)
                                 (Swift.currentSoundscape Swift.initial)
                                 (3 # 10)%Q (-1)%Z))
                true (Swift.currentSoundscape Swift.initial)
                (S (Swift.allocated Swift.initial)))
  | Throw e =>
      nativePlaying (exec BackgroundAudioModule.startPlayback stoppedWorld)
        = Swift.playing Swift.initial /\
      currentFile (exec BackgroundAudioModule.startPlayback stoppedWorld)
        = Some (Swift.currentSoundscape Swift.initial) /\
      ((e = AVFoundationError /\
        nativeModule (exec BackgroundAudioModule.startPlayback stoppedWorld)
          = Some Swift.initial) \/
       (e = NSError 1 /\
        bundled (env stoppedWorld) (Swift.currentSoundscape Swift.initial)
          = false /\
        nativeModule (exec BackgroundAudioModule.startPlayback stoppedWorld)
          = Some Swift.initial) \/
       (e = NSError 2 /\
        playerPlays (env stoppedWorld) = false /\
        option_map Player.handle
          (match nativeModule
                   (exec BackgroundAudioModule.startPlayback stoppedWorld) with
           | Some n' => Swift.audioPlayer n'
           | None => None
           end) = Some (Swift.allocated Swift.initial)))
  end.
Proof.
  apply (@startPlayback_outcomes stoppedWorld Swift.initial).
  reflexivity.
Defined.

(** X5: the native [play] starts once, with the file name it is given,
    which then stays the current soundscape even if the start fails; an
    empty or missing file name means the current soundscape. *)
Theorem native_play_picks_file (filename : option string) (w : World) (n : Swift.t) :
  nativeModule w = Some n ->
  currentFile (exec (BackgroundAudioModule.play filename) w) =
    Some (match filename with
          | Some newFilename =>
              if String.eqb newFilename EmptyString
              then Swift.currentSoundscape n else newFilename
          | None => Swift.currentSoundscape n
          end) /\
  filter isStart (engineLog (exec (BackgroundAudioModule.play filename) w)) =
    StartPlayback
      (match filename with
       | Some newFilename =>
           if String.eqb newFilename EmptyString
           then Swift.currentSoundscape n else newFilename
       | None => Swift.currentSoundscape n
       end)
    :: filter isStart (engineLog w) /\
  BackgroundAudioModule.play (Some EmptyString) w =
    BackgroundAudioModule.play None w.
Proof.
  destruct w as [os e nm sv st nd lg ev inv sw]; cbn [nativeModule engineLog].
  intros ->. destruct n as [pl playing cur al].
  unfold currentFile.
  split; [ | split; [ | reflexivity ] ].
  - destruct filename as [f | ]; [ destruct (String.eqb f EmptyString) eqn:Hf | ];
      unfold BackgroundAudioModule.play; rewrite ?Hf; crunch; reflexivity.
  - destruct filename as [f | ]; [ destruct (String.eqb f EmptyString) eqn:Hf | ];
      unfold BackgroundAudioModule.play; rewrite ?Hf; crunch; reflexivity.
Qed.

Lemma native_play_picks_file_witness :
  currentFile (exec (BackgroundAudioModule.play (Some "rain")) stoppedWorld) =
    Some (match Some "rain" with
          | Some newFilename =>
              if String.eqb newFilename EmptyString
              then Swift.currentSoundscape Swift.initial else newFilename
          | None => Swift.currentSoundscape Swift.initial
          end) /\
  filter isStart
    (engineLog (exec (BackgroundAudioModule.play (Some "rain")) stoppedWorld)) =
    StartPlayback
      (match Some "rain" with
       | Some newFilename =>
           if String.eqb newFilename EmptyString
           then Swift.currentSoundscape Swift.initial else newFilename
       | None => Swift.currentSoundscape Swift.initial
       end)
    :: filter isStart (engineLog stoppedWorld) /\
  BackgroundAudioModule.play (Some EmptyString) stoppedWorld =
    BackgroundAudioModule.play None stoppedWorld.
Proof.
  apply (@native_play_picks_file (Some "rain") stoppedWorld Swift.initial).
  reflexivity.
Defined.

(** ** Volume and the order of calls *)

(** X6: where a start succeeds, a volume set before it is lost (the new
    player has volume 0.3), and a volume set after it is the player's
    volume, clamped. *)
Theorem volume_before_start_is_lost (v : Q) (w : World) :
  outcome (BackgroundAudioModule.play None) w = Ok true ->
  option_map Player.volume
    (match nativeModule
             (exec (BackgroundAudioModule.setVolume v ;;
                    BackgroundAudioModule.play None) w) with
     | Some n => Swift.audioPlayer n
     | None => None
     end) = Some (3 # 10)%Q /\
  option_map Player.volume
    (match nativeModule
             (exec (BackgroundAudioModule.play None ;;
                    BackgroundAudioModule.setVolume v) w) with
     | Some n => Swift.audioPlayer n
     | None => None
     end) = Some (Qmax 0 (Qmin 1 v)).
Proof.
  destruct w as [os e nm sv st nd lg ev inv sw].
  destruct nm as [[pl playing cur al] | ]; [ | discriminate ].
  crunch; intros Hok; try discriminate; split; reflexivity.
Qed.

Lemma volume_before_start_is_lost_witness :
  option_map Player.volume
    (match nativeModule
             (exec (BackgroundAudioModule.setVolume (9 # 10)%Q ;;
                    BackgroundAudioModule.play None) stoppedWorld) with
     | Some n => Swift.audioPlayer n
     | None => None
     end) = Some (3 # 10)%Q /\
  option_map Player.volume
    (match nativeModule
             (exec (BackgroundAudioModule.play None ;;
                    BackgroundAudioModule.setVolume (9 # 10)%Q) stoppedWorld) with
     | Some n => Swift.audioPlayer n
     | None => None
     end) = Some (Qmax 0 (Qmin 1 (9 # 10)))%Q.
Proof.
  apply (@volume_before_start_is_lost (9 # 10)%Q stoppedWorld).
  reflexivity.
Defined.

(** X7: a successful [setSoundscape] while playing stops the playback and
    starts it again with a fresh player on the new file, at volume 0.3
    whatever the volume was before. *)
Theorem soundscape_switch_resets_volume
  (filename : string) (w : World) (n : Swift.t) :
  nativeModule w = Some n ->
  Swift.playing n = true ->
  outcome (BackgroundAudioModule.setSoundscape filename) w = Ok true ->
  nativeModule (exec (BackgroundAudioModule.setSoundscape filename) w) =
    Some (Swift.mk
            (Some (Player.mk (Swift.allocated n) filename (3 # 10)%Q (-1)%Z))
            true filename (S (Swift.allocated n))) /\
  engineLog (exec (BackgroundAudioModule.setSoundscape filename) w) =
    PlaybackStarted :: StartPlayback filename :: StopPlayback
      :: SetSoundscape filename :: engineLog w.
Proof.
  destruct w as [os e nm sv st nd lg ev inv sw]; cbn [nativeModule].
  intros -> Hplaying. destruct n as [pl playing cur al].
  cbn in Hplaying; subst playing.
  crunch; intros Hok; try discriminate; split; reflexivity.
Qed.

Lemma soundscape_switch_resets_volume_witness :
  nativeModule (exec (BackgroundAudioModule.setSoundscape "ocean-waves")
                     (exec (BackgroundAudioModule.setVolume (9 # 10)%Q)
                           playingWorld)) =
    Some (Swift.mk
            (Some (Player.mk 1 "ocean-waves" (3 # 10)%Q (-1)%Z))
            true "ocean-waves" 2) /\
  engineLog (exec (BackgroundAudioModule.setSoundscape "ocean-waves")
                  (exec (BackgroundAudioModule.setVolume (9 # 10)%Q)
                        playingWorld)) =
    PlaybackStarted :: StartPlayback "ocean-waves" :: StopPlayback
      :: SetSoundscape "ocean-waves"
      :: engineLog (exec (BackgroundAudioModule.setVolume (9 # 10)%Q)
                         playingWorld).
Proof.
  apply (@soundscape_switch_resets_volume "ocean-waves"
           (exec (BackgroundAudioModule.setVolume (9 # 10)%Q) playingWorld)
           (Swift.mk (Some (Player.withVolume (Qmax 0 (Qmin 1 (9 # 10)))%Q
                                              livePlayer))
                     true "ocean-waves" 1));
    reflexivity.
Defined.

(** ** What the native module keeps true of itself *)

Lemma nativeCall_keeps_sound (e : Env) (c : NativeCall) (w : World) :
  nativeSound w -> nativeSound (exec (nativeCall c) (withEnv e w)).
Proof.
  destruct w as [os e0 nm sv st nd lg ev inv sw].
  unfold nativeSound, moduleSound, playerSound; cbn [nativeModule].
  destruct nm as [[pl playing cur al] | ].
  - cbn [Swift.audioPlayer Swift.playing Swift.allocated].
    intros Hsound.
    destruct c as [f | | v | | f | t | b].
    + destruct f as [f | ]; [ destruct (String.eqb f EmptyString) eqn:Hf | ];
        unfold nativeCall, BackgroundAudioModule.play; rewrite ?Hf;
        crunch_calls; cbn;
        try exact Hsound;
        try (repeat split; try discriminate; try reflexivity; lia).
    + crunch_calls; cbn; reflexivity.
    + destruct pl as [p | ]; crunch_calls; cbn; try exact Hsound.
      destruct Hsound as (_ & _ & Hloops & Hhandle).
      destruct (clamp_range v) as [Hlow Hhigh].
      repeat split; assumption.
    + crunch_calls; cbn; exact Hsound.
    + crunch_calls; cbn;
        try exact Hsound; try reflexivity;
        try (repeat split; try discriminate; try reflexivity; lia).
    + destruct t, pl as [p | ]; crunch_calls; cbn;
        try exact Hsound; try reflexivity; try congruence.
    + crunch_calls; cbn; exact Hsound.
  - intros _.
    destruct c as [[f | ] | | v | | f | [ | ] | b];
      try (destruct (String.eqb f EmptyString) eqn:Hf);
      unfold nativeCall, BackgroundAudioModule.play; rewrite ?Hf;
      crunch_calls; exact I.
Qed.

(** X8: under any sequence of calls on the native module, each meeting
    any behaviour of the platform, the module never claims to play without
    a player, and a player always loops forever, has a volume in [0, 1]
    and a handle of its own. *)
Theorem native_calls_keep_module_sound
  (calls : list (Env * NativeCall)) (w : World) :
  nativeSound w -> nativeSound (nativeRun calls w).
Proof.
  revert w. induction calls as [ | [e c] later IH]; intros w Hsound.
  - exact Hsound.
  - cbn [nativeRun]. apply IH. apply nativeCall_keeps_sound. exact Hsound.
Qed.

Lemma native_calls_keep_module_sound_witness :
  nativeSound
    (nativeRun
       [(healthyEnv, NativePlay None);
        (healthyEnv, NativeSetVolume (17 # 10)%Q);
        (mkEnv true [] true false true true, NativeSetSoundscape "rain");
        (healthyEnv, NativeInterruption BackgroundAudioModule.ended)]
       stoppedWorld).
Proof.
  apply (@native_calls_keep_module_sound
           [(healthyEnv, NativePlay None);
            (healthyEnv, NativeSetVolume (17 # 10)%Q);
            (mkEnv true [] true false true true, NativeSetSoundscape "rain");
            (healthyEnv, NativeInterruption BackgroundAudioModule.ended)]
           stoppedWorld).
  reflexivity.
Defined.

(** ** Interruptions and route changes *)



(** X10: a route change never changes the module, sends no event and
    leaves the answer of [isPlaying] as it was; it asks the player to play
    again exactly when the module is playing and its player has stopped,
    and the result of that request is dropped. *)
Theorem route_change_is_silent (playerIsPlaying : bool) (w : World) :
  nativeModule (exec (BackgroundAudioModule.handleRouteChange playerIsPlaying) w)
    = nativeModule w /\
  sentEvents (exec (BackgroundAudioModule.handleRouteChange playerIsPlaying) w)
    = sentEvents w /\
  service (exec (BackgroundAudioModule.handleRouteChange playerIsPlaying) w)
    = service w /\
  outcome BackgroundAudioModule.isPlaying
    (exec (BackgroundAudioModule.handleRouteChange playerIsPlaying) w)
    = outcome BackgroundAudioModule.isPlaying w /\
  engineLog (exec (BackgroundAudioModule.handleRouteChange playerIsPlaying) w)
    = (if nativePlaying w && negb playerIsPlaying
          && match nativeModule w with
             | Some n =>
                 match Swift.audioPlayer n with
                 | Some _ => true
                 | None => false
                 end
             | None => false
             end
       then Resume (playerPlays (env w)) :: engineLog w
       else engineLog w).
Proof.
  destruct w as [os e nm sv st nd lg ev inv sw].
  destruct nm as [[[p | ] [ | ] cur al] | ], playerIsPlaying;
    repeat split; reflexivity.
Qed.

(** ** [play] and the cached flag *)

(** X11: with the module available, a [play] that returns has set the
    cached flag, and the module is playing unless the JavaScript-state
    check returned early on a flag that was already set; a [play] that
    throws leaves the service as it was. *)
Theorem play_sets_flag_only_on_success (jsStateCheck : bool) (w : World) :
  AudioService.moduleAvailable w = true ->
  match outcome (AudioService.play jsStateCheck) w with
  | Ok _ =>
      Service.isPlaying (service (exec (AudioService.play jsStateCheck) w))
        = true /\
      (nativePlaying (exec (AudioService.play jsStateCheck) w) = true \/
       (jsStateCheck = true /\ Service.isPlaying (service w) = true /\
        nativePlaying (exec (AudioService.play jsStateCheck) w) = false))
  | Throw _ =>
      service (exec (AudioService.play jsStateCheck) w) = service w /\
      statusWrites (exec (AudioService.play jsStateCheck) w) = statusWrites w /\
      nativePlaying w = false
  end.
Proof.
  destruct w as [os e nm [js hc cb] st nd lg ev inv sw].
  destruct os, nm as [[pl [ | ] cur al] | ], jsStateCheck, js;
    cbn; try discriminate; intros _;
    crunch; cbn; try congruence; repeat split; auto.
Qed.

Lemma play_sets_flag_only_on_success_witness :
  match outcome (AudioService.play false) stalledWorld with
  | Ok _ =>
      Service.isPlaying (service (exec (AudioService.play false) stalledWorld))
        = true /\
      (nativePlaying (exec (AudioService.play false) stalledWorld) = true \/
       (false = true /\ Service.isPlaying (service stalledWorld) = true /\
        nativePlaying (exec (AudioService.play false) stalledWorld) = false))
  | Throw _ =>
      service (exec (AudioService.play false) stalledWorld)
        = service stalledWorld /\
      statusWrites (exec (AudioService.play false) stalledWorld)
        = statusWrites stalledWorld /\
      nativePlaying stalledWorld = false
  end.
Proof.
  apply (@play_sets_flag_only_on_success false stalledWorld).
  reflexivity.
Defined.

(** X12: after a [play] that returned normally, a second [play] returns
    normally too, issues no further start, and neither of them stops the
    Engine. *)
Theorem play_again_issues_no_start (jsStateCheck : bool) (w : World) :
  outcome (AudioService.play jsStateCheck) w = Ok tt ->
  outcome (AudioService.play jsStateCheck)
          (exec (AudioService.play jsStateCheck) w) = Ok tt /\
  starts (engineLog (exec (AudioService.play jsStateCheck)
                          (exec (AudioService.play jsStateCheck) w)))
    = starts (engineLog (exec (AudioService.play jsStateCheck) w)) /\
  stops (engineLog (exec (AudioService.play jsStateCheck)
                         (exec (AudioService.play jsStateCheck) w)))
    = stops (engineLog w).
Proof.
  destruct w as [os e nm [js hc cb] st nd lg ev inv sw].
  destruct os, nm as [[pl [ | ] cur al] | ], jsStateCheck, js;
    crunch; intros Hok; try discriminate; repeat split.
Qed.

Lemma play_again_issues_no_start_witness :
  outcome (AudioService.play false)
          (exec (AudioService.play false) stoppedWorld) = Ok tt /\
  starts (engineLog (exec (AudioService.play false)
                          (exec (AudioService.play false) stoppedWorld)))
    = starts (engineLog (exec (AudioService.play false) stoppedWorld)) /\
  stops (engineLog (exec (AudioService.play false)
                         (exec (AudioService.play false) stoppedWorld)))
    = stops (engineLog stoppedWorld).
Proof.
  apply (@play_again_issues_no_start false stoppedWorld).
  reflexivity.
Defined.

(** ** The signer and audio errors *)

(** X13: audio never makes the signer fail: when the node starts,
    [startSigner] returns normally with the node set whatever happens to
    the playback, and [stopSigner] returns normally with the node
    cleared. *)
Theorem signer_survives_audio_failure
  (jsStateCheck keepAudio : bool) (w : World) :
  nodeStarts (env w) = true ->
  outcome (IglooService.startSigner jsStateCheck) w = Ok tt /\
  node (exec (IglooService.startSigner jsStateCheck) w) = true /\
  outcome (IglooService.stopSigner keepAudio) w = Ok tt /\
  node (exec (IglooService.stopSigner keepAudio) w) = false.
Proof.
  destruct w as [os e nm [js hc cb] st nd lg ev inv sw]; cbn [env].
  intros Hnode.
  destruct os, nm as [[pl playing cur al] | ], jsStateCheck, keepAudio, nd;
    unfold_async; rewrite ?Hnode; crunch; repeat split; congruence.
Qed.

Lemma signer_survives_audio_failure_witness :
  outcome (IglooService.startSigner false)
          (withEnv (mkEnv false [] false false true true) stoppedWorld)
    = Ok tt /\
  node (exec (IglooService.startSigner false)
             (withEnv (mkEnv false [] false false true true) stoppedWorld))
    = true /\
  outcome (IglooService.stopSigner false)
          (withEnv (mkEnv false [] false false true true) stoppedWorld)
    = Ok tt /\
  node (exec (IglooService.stopSigner false)
             (withEnv (mkEnv false [] false false true true) stoppedWorld))
    = false.
Proof.
  apply (@signer_survives_audio_failure false false
           (withEnv (mkEnv false [] false false true true) stoppedWorld)).
  reflexivity.
Defined.

(** ** The health check on any world *)

(** X14: on any world a health-check tick returns normally; the cached
    flag afterwards is the old flag and the module's answer together, so a
    tick can clear the flag but never set it; the callback runs exactly
    when the tick clears the flag; and the tick neither starts nor stops
    a playback, nor touches the module, the events or the store. *)
Theorem healthCheck_only_clears_the_flag (w : World) :
  outcome AudioService.healthCheck w = Ok tt /\
  Service.isPlaying (service (exec AudioService.healthCheck w)) =
    Service.isPlaying (service w)
    && AudioService.moduleAvailable w && nativePlaying w /\
  invoked (exec AudioService.healthCheck w) =
    (if Service.isPlaying (service w)
        && negb (Service.isPlaying (service (exec AudioService.healthCheck w)))
     then match Service.onHealthCheckFailed (service w) with
          | Some onFailed => onFailed :: invoked w
          | None => invoked w
          end
     else invoked w) /\
  nativeModule (exec AudioService.healthCheck w) = nativeModule w /\
  sentEvents (exec AudioService.healthCheck w) = sentEvents w /\
  store (exec AudioService.healthCheck w) = store w /\
  starts (engineLog (exec AudioService.healthCheck w)) = starts (engineLog w) /\
  stops (engineLog (exec AudioService.healthCheck w)) = stops (engineLog w).
Proof.
  destruct w as [os e nm [js hc cb] st nd lg ev inv sw].
  destruct os, nm as [[pl [ | ] cur al] | ], js, cb as [onFailed | ];
    repeat split; reflexivity.
Qed.

(** ** Strings *)

Lemma length_append (a b : string) :
  String.length (a ++ b) = String.length a + String.length b.
Proof. induction a as [ | c a IH]; cbn; [ reflexivity | now rewrite IH ]. Qed.

Lemma length_substring (n m : nat) (s : string) :
  String.length (substring n m s) = Nat.min m (String.length s - n).
Proof.
  revert n m. induction s as [ | c s IH]; intros n m.
  - destruct n, m; reflexivity.
  - destruct n as [ | n].
    + destruct m as [ | m]; cbn; [ reflexivity | ].
      rewrite IH. rewrite Nat.sub_0_r. reflexivity.
    + cbn. apply IH.
Qed.

Lemma substring_all (m : nat) (s : string) :
  String.length s <= m -> substring 0 m s = s.
Proof.
  revert m. induction s as [ | c s IH]; intros m Hlen.
  - destruct m; reflexivity.
  - destruct m as [ | m]; cbn in *; [ lia | ].
    rewrite IH by lia. reflexivity.
Qed.

Lemma substring_append_left (a b : string) :
  substring 0 (String.length a) (a ++ b) = a.
Proof.
  induction a as [ | c a IH]; cbn.
  - destruct b; reflexivity.
  - now rewrite IH.
Qed.

Lemma substring_append_right (a b : string) (k m : nat) :
  substring (String.length a + k) m (a ++ b) = substring k m b.
Proof. induction a as [ | c a IH]; cbn; [ reflexivity | exact IH ]. Qed.

Lemma allChars_append (test : ascii -> bool) (a b : string) :
  Onboarding.allChars test (a ++ b) =
    Onboarding.allChars test a && Onboarding.allChars test b.
Proof.
  induction a as [ | c a IH]; cbn; [ reflexivity | ].
  rewrite IH. apply andb_assoc.
Qed.

(** ** The signer screen *)

(** X15: [truncatePubkey] returns a key of at most 16 characters as it
    is, and a longer one as 15 characters: its first eight, three dots,
    its last four; truncating twice is truncating once. *)
Theorem truncatePubkey_bounded_and_stable (pubkey : string) :
  String.length (SignerTab.truncatePubkey pubkey) =
    (if (String.length pubkey <=? 16)%nat then String.length pubkey else 15) /\
  SignerTab.truncatePubkey (SignerTab.truncatePubkey pubkey)
    = SignerTab.truncatePubkey pubkey /\
  (if (String.length pubkey <=? 16)%nat
   then SignerTab.truncatePubkey pubkey = pubkey
   else
     substring 0 8 (SignerTab.truncatePubkey pubkey) = substring 0 8 pubkey /\
     substring 8 3 (SignerTab.truncatePubkey pubkey) = "..." /\
     substring 11 4 (SignerTab.truncatePubkey pubkey)
       = substring (String.length pubkey - 4) 4 pubkey).
Proof.
  assert (Hlen :
    String.length (SignerTab.truncatePubkey pubkey) =
      (if (String.length pubkey <=? 16)%nat
       then String.length pubkey else 15)).
  { unfold SignerTab.truncatePubkey.
    destruct (Nat.leb_spec (String.length pubkey) 16) as [Hshort | Hlong];
      [ reflexivity | ].
    rewrite !length_append, !length_substring. cbn [String.length]. lia. }
  split; [ exact Hlen | ].
  split.
  - unfold SignerTab.truncatePubkey at 1.
    rewrite Hlen.
    destruct (Nat.leb_spec (String.length pubkey) 16) as [Hshort | Hlong].
    + apply Nat.leb_le in Hshort. rewrite Hshort. reflexivity.
    + reflexivity.
  - unfold SignerTab.truncatePubkey.
    destruct (Nat.leb_spec (String.length pubkey) 16) as [Hshort | Hlong];
      [ reflexivity | ].
    assert (H8 : String.length (substring 0 8 pubkey) = 8)
      by (rewrite length_substring; lia).
    assert (H4 :
      String.length (substring (String.length pubkey - 4) 4 pubkey) = 4)
      by (rewrite length_substring; lia).
    repeat split.
    + rewrite <- H8 at 1. rewrite substring_append_left. reflexivity.
    + change 8 with (8 + 0) at 1. rewrite <- H8 at 1.
      rewrite substring_append_right.
      exact (substring_append_left "..." _).
    + change 11 with (8 + 3) at 1. rewrite <- H8 at 1.
      rewrite substring_append_right.
      cbn [append substring].
      apply substring_all. lia.
Qed.

Lemma uint_digits_only (d : Decimal.uint) :
  Onboarding.allChars isDigit (NilEmpty.string_of_uint d) = true.
Proof. induction d; cbn; auto. Qed.

Lemma numberToString_digits_only (n : Z) :
  (0 <= n)%Z ->
  Onboarding.allChars isDigit (SignerTab.numberToString n) = true.
Proof.
  intros Hn. unfold SignerTab.numberToString.
  destruct n as [ | p | p]; [ reflexivity | | lia ].
  cbn [Z.to_int NilZero.string_of_int]. unfold NilZero.string_of_uint.
  destruct (Pos.to_uint p) eqn:Hp; try apply uint_digits_only.
  reflexivity.
Qed.

Lemma numberToString_injective (a b : Z) :
  SignerTab.numberToString a = SignerTab.numberToString b -> a = b.
Proof.
  unfold SignerTab.numberToString. intros Heq.
  assert (Hgood : forall z,
            Z.to_int z <> Decimal.Pos Decimal.Nil /\
            Z.to_int z <> Decimal.Neg Decimal.Nil).
  { intros [ | p | p]; cbn; split; try discriminate;
      intros [= Hnil]; exact (DecimalPos.Unsigned.to_uint_nonnil p Hnil). }
  apply DecimalZ.to_int_inj.
  assert (Hsome : Some (Z.to_int a) = Some (Z.to_int b)).
  { rewrite <- (NilZero.isi (Z.to_int a)) by apply Hgood.
    rewrite <- (NilZero.isi (Z.to_int b)) by apply Hgood.
    now rewrite Heq. }
  now injection Hsome.
Qed.

Lemma spanDigits_append (digits rest : string) :
  Onboarding.allChars isDigit digits = true ->
  startsWithoutDigit rest = true ->
  spanDigits (digits ++ rest) = (digits, rest).
Proof.
  intros Hdigits Hrest.
  induction digits as [ | c digits IH]; cbn in *.
  - destruct rest as [ | c r]; [ reflexivity | ].
    cbn in Hrest. apply negb_true_iff in Hrest. cbn. now rewrite Hrest.
  - apply andb_true_iff in Hdigits as [Hc Hmore].
    rewrite Hc, (IH Hmore). reflexivity.
Qed.

(** Splitting [number ++ rest] where [rest] opens with a letter. *)
Lemma number_then_text (a b : Z) (ra rb : string) :
  (0 <= a)%Z -> (0 <= b)%Z ->
  startsWithoutDigit ra = true -> startsWithoutDigit rb = true ->
  SignerTab.numberToString a ++ ra = SignerTab.numberToString b ++ rb ->
  a = b /\ ra = rb.
Proof.
  intros Ha Hb Hra Hrb Heq.
  apply (f_equal spanDigits) in Heq.
  rewrite !spanDigits_append in Heq
    by (assumption || now apply numberToString_digits_only).
  injection Heq as Hnum Hrest.
  split; [ now apply numberToString_injective | exact Hrest ].
Qed.

Lemma minute_split (a : Z) :
  (0 <= a)%Z ->
  (a / 60 = 60 * (a / 3600) + Z.rem a 3600 / 60)%Z /\
  (0 <= Z.rem a 3600 / 60 < 60)%Z.
Proof.
  intros Ha.
  rewrite Z.rem_mod_nonneg by lia.
  pose proof (Z.div_mod a 3600 ltac:(lia)) as Hdm.
  pose proof (Z.mod_pos_bound a 3600 ltac:(lia)) as Hbound.
  split.
  - rewrite Hdm at 1.
    replace (3600 * (a / 3600) + a mod 3600)%Z
      with (a mod 3600 + (60 * (a / 3600)) * 60)%Z by lia.
    rewrite Z.div_add by lia. lia.
  - split.
    + apply Z.div_pos; lia.
    + apply Z.div_lt_upper_bound; lia.
Qed.

(** X16: below one hour the text of [formatUptime] determines the number
    of seconds: no other non-negative whole number of seconds is shown
    the same way. *)
Theorem formatUptime_exact_below_an_hour (a b : Z) :
  (0 <= a < 3600)%Z -> (0 <= b)%Z ->
  SignerTab.formatUptime a = SignerTab.formatUptime b -> a = b.
Proof.
  intros [Ha Hhour] Hb. unfold SignerTab.formatUptime.
  assert (Hrem : forall z, (0 <= z)%Z -> (0 <= Z.rem z 60)%Z)
    by (intros z Hz; apply Z.rem_nonneg; lia).
  assert (Hdiv : forall z k, (0 <= z)%Z -> (0 < k)%Z -> (0 <= z / k)%Z)
    by (intros z k Hz Hk; apply Z.div_pos; lia).
  destruct (Z.ltb_spec a 60) as [Ha60 | Ha60];
    destruct (Z.ltb_spec b 60) as [Hb60 | Hb60];
    try (destruct (Z.ltb_spec a 3600) as [Ha3600 | Ha3600]; [ | lia ]);
    try destruct (Z.ltb_spec b 3600) as [Hb3600 | Hb3600];
    intros Heq;
    apply number_then_text in Heq;
    try reflexivity; try (apply Hdiv; lia); try assumption;
    destruct Heq as [Hnum Hrest]; try discriminate; try exact Hnum.
  cbn in Hrest. injection Hrest as Hrest.
  apply number_then_text in Hrest;
    try reflexivity; try (apply Hrem; lia).
  destruct Hrest as [Hsec _].
  rewrite !Z.rem_mod_nonneg in Hsec by lia.
  rewrite (Z.div_mod a 60), (Z.div_mod b 60) by lia.
  now rewrite Hnum, Hsec.
Qed.

Lemma formatUptime_exact_below_an_hour_witness : (125 = 125)%Z.
Proof.
  apply (@formatUptime_exact_below_an_hour 125 125);
    [ lia | lia | reflexivity ].
Defined.

(** X17: from one hour on, and below 2^53 seconds (where the doubles of
    the code are exact), two uptimes are shown the same way exactly when
    they lie in the same minute. *)
Theorem formatUptime_minutes_above_an_hour (a b : Z) :
  (3600 <= a < 9007199254740992)%Z -> (3600 <= b < 9007199254740992)%Z ->
  (SignerTab.formatUptime a = SignerTab.formatUptime b <->
   (a / 60 = b / 60)%Z).
Proof.
  intros [Ha _] [Hb _]. unfold SignerTab.formatUptime.
  destruct (Z.ltb_spec a 60) as [Ha60 | _]; [ lia | ].
  destruct (Z.ltb_spec b 60) as [Hb60 | _]; [ lia | ].
  destruct (Z.ltb_spec a 3600) as [Ha3600 | _]; [ lia | ].
  destruct (Z.ltb_spec b 3600) as [Hb3600 | _]; [ lia | ].
  destruct (@minute_split a ltac:(lia)) as [Hsa Hma].
  destruct (@minute_split b ltac:(lia)) as [Hsb Hmb].
  cbv zeta. split.
  - intros Heq.
    assert (Hsplit :
      (a / 3600)%Z = (b / 3600)%Z /\
      "h " ++ SignerTab.numberToString (Z.rem a 3600 / 60) ++ "m" =
      "h " ++ SignerTab.numberToString (Z.rem b 3600 / 60) ++ "m").
    { apply number_then_text;
        [ apply Z.div_pos; lia | apply Z.div_pos; lia
        | reflexivity | reflexivity | exact Heq ]. }
    destruct Hsplit as [Hhours Hrest].
    cbn in Hrest. injection Hrest as Hrest.
    assert (Hmins :
      (Z.rem a 3600 / 60)%Z = (Z.rem b 3600 / 60)%Z /\ "m" = "m").
    { apply number_then_text;
        [ apply Hma | apply Hmb | reflexivity | reflexivity | exact Hrest ]. }
    destruct Hmins as [Hmins _].
    lia.
  - intros Hminute.
    assert (Hhours : (a / 3600 = b / 3600)%Z).
    { pose proof (Z.div_pos a 3600 ltac:(lia) ltac:(lia)).
      pose proof (Z.div_pos b 3600 ltac:(lia) ltac:(lia)).
      lia. }
    assert (Hmins : (Z.rem a 3600 / 60 = Z.rem b 3600 / 60)%Z) by lia.
    now rewrite Hhours, Hmins.
Qed.

Lemma formatUptime_minutes_above_an_hour_witness :
  SignerTab.formatUptime 3725 = SignerTab.formatUptime 3779 <->
  (3725 / 60 = 3779 / 60)%Z.
Proof.
  apply (@formatUptime_minutes_above_an_hour 3725 3779); lia.
Defined.

(** ** The echo challenge *)

Lemma concat_cons (x : string) (xs : list string) :
  String.concat EmptyString (x :: xs) = x ++ String.concat EmptyString xs.
Proof.
  destruct xs as [ | y ys]; cbn.
  - induction x as [ | c x IH]; cbn; [ reflexivity | now rewrite <- IH ].
  - reflexivity.
Qed.

Lemma hex_byte (b : byte) :
  String.length (Onboarding.padStart 2 "0" (Onboarding.toString16 (Byte.to_N b)))
    = 2 /\
  Onboarding.allChars Onboarding.isHexDigit
    (Onboarding.padStart 2 "0" (Onboarding.toString16 (Byte.to_N b))) = true.
Proof. destruct b; split; reflexivity. Qed.

(** X18: [generateHexChallenge] gives two hexadecimal digits per byte,
    so its result passes the checks made on an echo challenge (non-empty,
    of even length, hexadecimal digits only) whenever at least one byte
    was asked for. *)
Theorem generateHexChallenge_is_acceptable (bytes : list byte) :
  String.length (Onboarding.generateHexChallenge bytes) = 2 * length bytes /\
  Onboarding.allChars Onboarding.isHexDigit
    (Onboarding.generateHexChallenge bytes) = true /\
  Onboarding.acceptableChallenge (Onboarding.generateHexChallenge bytes) =
    negb (length bytes =? 0)%nat.
Proof.
  assert (Hboth :
    String.length (Onboarding.generateHexChallenge bytes) = 2 * length bytes /\
    Onboarding.allChars Onboarding.isHexDigit
      (Onboarding.generateHexChallenge bytes) = true).
  { unfold Onboarding.generateHexChallenge.
    induction bytes as [ | b bytes [IHlen IHhex]]; [ split; reflexivity | ].
    cbn [map]. rewrite concat_cons, length_append, allChars_append.
    destruct (hex_byte b) as [Hlen Hhex].
    rewrite Hlen, Hhex, IHlen, IHhex. cbn [length]. split; [ lia | reflexivity ]. }
  destruct Hboth as [Hlen Hhex].
  split; [ exact Hlen | ]. split; [ exact Hhex | ].
  unfold Onboarding.acceptableChallenge.
  rewrite Hhex, Hlen.
  assert (Heven : Nat.even (2 * length bytes) = true)
    by (apply Nat.even_spec; exists (length bytes); reflexivity).
  rewrite Heven.
  destruct bytes; reflexivity.
Qed.
